(** * GolangCURD: a CRUD HTTP service over a [users] table

    A shallow embedding of [main.go]: the [User] entity and its validation,
    the data-access functions over a model of the SQL store, and the five
    request handlers over a model of [http.ResponseWriter].

    Go strings are byte sequences and are modelled by [string] (a list of
    8-bit [ascii] characters); Go's [int] is the 64-bit integer of the
    common platforms and is modelled by [Z] with its range written out
    where the code checks it ([strconv.Atoi]). *)

From Stdlib Require Import ZArith Ascii String List Bool Lia.
From stdpp Require Import base option list strings gmap.

Local Open Scope string_scope.
Local Open Scope list_scope.
Local Open Scope Z_scope.

(* ===================================================================== *)
(** * Part I: definitions                                                 *)
(* ===================================================================== *)

(** ** Regular expressions (the fragment of [regexp] syntax the code uses) *)

Module Regexp.

(** An item of a bracket expression: [a-z] or a literal character. *)
Inductive class_item :=
| Range (lo hi : ascii)
| Single (c : ascii).

Definition code (c : ascii) : N := N_of_ascii c.

Definition item_has (c : ascii) (i : class_item) : bool :=
  match i with
  | Range lo hi => (code lo <=? code c)%N && (code c <=? code hi)%N
  | Single d => (code c =? code d)%N
  end.

Definition class_has (items : list class_item) (c : ascii) : bool :=
  existsb (item_has c) items.

Inductive regex :=
| Void                                  (* matches nothing *)
| Eps                                   (* matches the empty string *)
| Class (items : list class_item)       (* [...] *)
| Cat (r1 r2 : regex)                   (* r1 r2 *)
| Alt (r1 r2 : regex)                   (* r1|r2 *)
| Star (r : regex).                     (* r* *)

(** [c] and [\c] *)
Definition Lit (c : ascii) : regex := Class [Single c].
(** [r+] *)
Definition Plus (r : regex) : regex := Cat r (Star r).
(** [r{n,}] *)
Fixpoint AtLeast (n : nat) (r : regex) : regex :=
  match n with
  | O => Star r
  | S k => Cat r (AtLeast k r)
  end.

(** The language of a regular expression. *)
Inductive matches : regex -> list ascii -> Prop :=
| MEps : matches Eps []
| MClass items c : class_has items c = true -> matches (Class items) [c]
| MCat r1 r2 s1 s2 :
    matches r1 s1 -> matches r2 s2 -> matches (Cat r1 r2) (s1 ++ s2)
| MAltL r1 r2 s : matches r1 s -> matches (Alt r1 r2) s
| MAltR r1 r2 s : matches r2 s -> matches (Alt r1 r2) s
| MStar0 r : matches (Star r) []
| MStarS r s1 s2 :
    matches r s1 -> matches (Star r) s2 -> matches (Star r) (s1 ++ s2).

(** The matcher: Brzozowski derivatives. *)
Fixpoint nullable (r : regex) : bool :=
  match r with
  | Void => false
  | Eps => true
  | Class _ => false
  | Cat r1 r2 => nullable r1 && nullable r2
  | Alt r1 r2 => nullable r1 || nullable r2
  | Star _ => true
  end.

Fixpoint deriv (c : ascii) (r : regex) : regex :=
  match r with
  | Void => Void
  | Eps => Void
  | Class items => if class_has items c then Eps else Void
  | Cat r1 r2 =>
      if nullable r1
      then Alt (Cat (deriv c r1) r2) (deriv c r2)
      else Cat (deriv c r1) r2
  | Alt r1 r2 => Alt (deriv c r1) (deriv c r2)
  | Star r1 => Cat (deriv c r1) (Star r1)
  end.

Fixpoint run (r : regex) (s : list ascii) : bool :=
  match s with
  | [] => nullable r
  | c :: s' => run (deriv c r) s'
  end.

(** [re.MatchString(s)] for a pattern anchored as [^r$]: in Go's syntax
    (no [m] flag) [^] and [$] match only at the two ends of the text, so
    the whole of [s] has to be in the language of [r]. *)
Definition MatchString (r : regex) (s : string) : bool :=
  run r (list_ascii_of_string s).

End Regexp.

Import Regexp.

(** ** The entity *)

(** [type User struct { ID int; Name string; Email string }] *)
Record User := mkUser { ID : Z; Name : string; Email : string }.

(** Go's [error] values that occur in this program. *)
Inductive error :=
| errorString (msg : string)     (* fmt.Errorf(msg) *)
| ErrNoRows                      (* sql.ErrNoRows *)
| ErrSyntax (fn num : string)    (* strconv.NumError{fn, num, ErrSyntax} *)
| ErrRange (fn num : string)     (* strconv.NumError{fn, num, ErrRange} *)
| UnmarshalError (msg : string)  (* encoding/json: syntax or type error *)
| StoreError (msg : string).     (* an error reported by the SQL layer *)

(** [a-zA-Z0-9._%+-] *)
Definition local_class : list class_item :=
  [Range "a" "z"; Range "A" "Z"; Range "0" "9";
   Single "."; Single "_"; Single "%"; Single "+"; Single "-"]%char.

(** [a-zA-Z0-9.-] *)
Definition domain_class : list class_item :=
  [Range "a" "z"; Range "A" "Z"; Range "0" "9"; Single "."; Single "-"]%char.

(** [a-zA-Z] *)
Definition alpha_class : list class_item :=
  [Range "a" "z"; Range "A" "Z"]%char.

(** [^[a-zA-Z0-9._%+-]+@[a-zA-Z0-9.-]+\.[a-zA-Z]{2,}$] *)
Definition email_re : regex :=
  Cat (Plus (Class local_class))
 (Cat (Lit "@")
 (Cat (Plus (Class domain_class))
 (Cat (Lit ".")
      (AtLeast 2 (Class alpha_class))))).

Definition isValidEmail (email : string) : bool :=
  MatchString email_re email.

(** [func (u *User) Validate() error]; [None] is Go's [nil]. *)
Definition Validate (u : User) : option error :=
  if decide (Name u = "") then Some (errorString "name is required")
  else if decide (Email u = "") then Some (errorString "email is required")
  else if negb (isValidEmail (Email u)) then
    Some (errorString "invalid email format")
  else None.


(** ** Go values used by the handlers *)

(** A Go result pair [(v, err)] of which the caller reads [v] only when
    [err == nil]. *)
Inductive Result (A : Type) :=
| Ok (a : A)
| Err (e : error).
Arguments Ok {A} a.
Arguments Err {A} e.

(** [err.Error()] *)
Definition Error_ (e : error) : string :=
  match e with
  | errorString msg => msg
  | ErrNoRows => "sql: no rows in result set"
  | ErrSyntax fn num =>
      "strconv." +:+ fn +:+ ": parsing " +:+ num +:+ ": invalid syntax"
  | ErrRange fn num =>
      "strconv." +:+ fn +:+ ": parsing " +:+ num +:+ ": value out of range"
  | UnmarshalError msg => msg
  | StoreError msg => msg
  end.

(** A Go slice value: the [nil] slice is distinct from an allocated slice of
    length zero. *)
Inductive slice (A : Type) :=
| nil_slice
| Slice (elems : list A).
Arguments nil_slice {A}.
Arguments Slice {A} elems.

Definition len {A} (s : slice A) : nat :=
  match s with
  | nil_slice => O
  | Slice l => length l
  end.

Definition elems_of {A} (s : slice A) : list A :=
  match s with
  | nil_slice => []
  | Slice l => l
  end.

(** [append(s, x)]: appending to the [nil] slice allocates. *)
Definition append {A} (s : slice A) (x : A) : slice A :=
  match s with
  | nil_slice => Slice [x]
  | Slice l => Slice (l ++ [x])
  end.

(** ** [strconv.Atoi] *)

Module strconv.

Definition intSize : Z := 64.
Definition maxInt : Z := 2 ^ (intSize - 1) - 1.
Definition minInt : Z := - 2 ^ (intSize - 1).
Definition maxUint64 : Z := 2 ^ 64 - 1.

Definition digit (c : ascii) : option Z :=
  let n := Z.of_N (N_of_ascii c) in
  if (48 <=? n) && (n <=? 57) then Some (n - 48) else None.

Inductive uint_result :=
| UOk (n : Z)
| USyntax
| URange.

(** The loop of [ParseUint(s, 10, 64)]: a character that is not a decimal
    digit is a syntax error, an accumulator that leaves [uint64] is a
    range error, whichever the scan meets first. *)
Fixpoint parse_digits (n : Z) (s : list ascii) : uint_result :=
  match s with
  | [] => UOk n
  | c :: s' =>
      match digit c with
      | None => USyntax
      | Some d =>
          if maxUint64 <? n * 10 + d then URange
          else parse_digits (n * 10 + d) s'
      end
  end.

(** An optional sign, then at least one digit. *)
Definition split_sign (s : list ascii) : bool * list ascii :=
  match s with
  | c :: s' =>
      if (c =? "-")%char then (true, s')
      else if (c =? "+")%char then (false, s')
      else (false, s)
  | [] => (false, [])
  end.

Definition Atoi (s : string) : Result Z :=
  let '(neg, ds) := split_sign (list_ascii_of_string s) in
  match ds with
  | [] => Err (ErrSyntax "Atoi" s)
  | _ =>
      match parse_digits 0 ds with
      | USyntax => Err (ErrSyntax "Atoi" s)
      | URange => Err (ErrRange "Atoi" s)
      | UOk un =>
          let v := if neg then - un else un in
          if (minInt <=? v) && (v <=? maxInt) then Ok v
          else Err (ErrRange "Atoi" s)
      end
  end.

End strconv.

(** ** JSON values, [encoding/json] *)

#[local] Unset Elimination Schemes.
Inductive json :=
| JNull
| JBool (b : bool)
| JNumber (n : Z)                 (* a number literal that is an integer *)
| JFloat (lit : string)           (* a literal with a fraction or exponent *)
| JString (s : string)
| JArray (items : list json)
| JObject (members : list (string * json)).
#[local] Set Elimination Schemes.

(** What [json.Marshal] produces for a [User] (the struct tags name the
    keys) and for a [[]User]: a nil slice is encoded as [null]. *)
Definition json_of_User (u : User) : json :=
  JObject [("id", JNumber (ID u));
           ("name", JString (Name u));
           ("email", JString (Email u))].

Definition json_of_Users (us : slice User) : json :=
  match us with
  | nil_slice => JNull
  | Slice l => JArray (map json_of_User l)
  end.

(** Decoding into a [User]. Keys are matched to the tagged field names
    without regard to case; unknown keys are skipped; [null] leaves a field
    as it is; a value of the wrong kind records a type error and decoding
    goes on, the first recorded error being the one returned. *)
Definition lower (c : ascii) : ascii :=
  let n := N_of_ascii c in
  if (65 <=? n)%N && (n <=? 90)%N then ascii_of_N (n + 32) else c.

Fixpoint fold_case (s : string) : string :=
  match s with
  | EmptyString => EmptyString
  | String c s' => String (lower c) (fold_case s')
  end.

Definition first_error (saved new : option error) : option error :=
  match saved with
  | Some e => Some e
  | None => new
  end.

Definition set_field (u : User) (key : string) (v : json)
  : User * option error :=
  let k := fold_case key in
  if decide (k = "id") then
    match v with
    | JNull => (u, None)
    | JNumber n =>
        if (strconv.minInt <=? n) && (n <=? strconv.maxInt)
        then (mkUser n (Name u) (Email u), None)
        else (u, Some (UnmarshalError
                         "json: cannot unmarshal number into Go struct field User.id of type int"))
    | _ => (u, Some (UnmarshalError
                       "json: cannot unmarshal value into Go struct field User.id of type int"))
    end
  else if decide (k = "name") then
    match v with
    | JNull => (u, None)
    | JString s => (mkUser (ID u) s (Email u), None)
    | _ => (u, Some (UnmarshalError
                       "json: cannot unmarshal value into Go struct field User.name of type string"))
    end
  else if decide (k = "email") then
    match v with
    | JNull => (u, None)
    | JString s => (mkUser (ID u) (Name u) s, None)
    | _ => (u, Some (UnmarshalError
                       "json: cannot unmarshal value into Go struct field User.email of type string"))
    end
  else (u, None).

Fixpoint set_fields (ms : list (string * json)) (u : User)
    (saved : option error) : User * option error :=
  match ms with
  | [] => (u, saved)
  | (k, v) :: ms' =>
      let '(u', e) := set_field u k v in
      set_fields ms' u' (first_error saved e)
  end.

(** [json.NewDecoder(body).Decode(&user)]. The body is given as the JSON
    value its text starts with, [None] when it starts with no JSON value
    (empty or malformed). *)
Definition Decode (body : option json) (u : User) : User * option error :=
  match body with
  | None => (u, Some (UnmarshalError "invalid character or unexpected EOF"))
  | Some JNull => (u, None)
  | Some (JObject ms) => set_fields ms u None
  | Some _ =>
      (u, Some (UnmarshalError
                  "json: cannot unmarshal value into Go value of type main.User"))
  end.


(** ** State passing *)

(** A computation that threads a state [S] and returns an [A]. *)
Definition State (S A : Type) : Type := S -> A * S.

Definition ret {S A} (a : A) : State S A := fun s => (a, s).

Definition bind {S A B} (m : State S A) (k : A -> State S B) : State S B :=
  fun s => let '(a, s') := m s in k a s'.

Declare Scope go_scope.
Delimit Scope go_scope with go.
Notation "x <- m ;; k" := (bind m (fun x => k))
  (at level 100, m at next level, right associativity) : go_scope.
Notation "m ;; k" := (bind m (fun _ => k))
  (at level 100, right associativity) : go_scope.
Local Open Scope go_scope.

(** [defer f(); body]: [f] runs when the body has returned, whichever
    [return] it left through. *)
Definition defer {S A} (f : State S unit) (body : State S A) : State S A :=
  a <- body ;; f ;; ret a.

(** ** The SQL store behind [database/sql] *)

(** The five statements the program issues, with their bound parameters. *)
Inductive stmt :=
| SelectAll                                (* SELECT id, name, email FROM users *)
| Insert (name email : string)             (* INSERT INTO users (name, email) VALUES (?, ?) *)
| SelectByID (id : Z)                      (* SELECT id, name, email FROM users WHERE id = ? *)
| Update (name email : string) (id : Z)    (* UPDATE users SET name = ?, email = ? WHERE id = ? *)
| Delete (id : Z).                         (* DELETE FROM users WHERE id = ? *)

Inductive event :=
| EvOpen                 (* sql.Open returned a handle *)
| EvClose                (* db.Close() *)
| EvStmt (q : stmt).     (* db.Query, db.QueryRow or db.Exec sent a statement *)

(** The world a handler runs in: the rows of [users] in storage order, the
    next AUTO_INCREMENT value, the number of [*sql.DB] handles that are
    open, what has been done so far, and [faults]: the outcome that each
    coming call into [database/sql] that can fail will have, in call order
    ([None]: the call succeeds; an exhausted list: every call succeeds). *)
Record World := mkWorld {
  users : list User;
  auto_increment : Z;
  open_handles : nat;
  log : list event;
  faults : list (option error)
}.

(** [*sql.DB] *)
Record DB := mkDB { driverName : string; dataSourceName : string }.

Definition pop_fault : State World (option error) :=
  fun w =>
    (hd None (faults w),
     mkWorld (users w) (auto_increment w) (open_handles w) (log w)
             (tl (faults w))).

Definition emit (e : event) : State World unit :=
  fun w =>
    (tt, mkWorld (users w) (auto_increment w) (open_handles w)
                 (log w ++ [e]) (faults w)).

Definition set_handles (f : nat -> nat) : State World unit :=
  fun w =>
    (tt, mkWorld (users w) (auto_increment w) (f (open_handles w))
                 (log w) (faults w)).

(** What a statement that succeeds does to the table. *)
Definition apply_stmt (q : stmt) (w : World) : World :=
  match q with
  | SelectAll | SelectByID _ => w
  | Insert name email =>
      mkWorld (users w ++ [mkUser (auto_increment w) name email])
              (auto_increment w + 1) (open_handles w) (log w) (faults w)
  | Update name email id =>
      mkWorld (map (fun row => if decide (ID row = id)
                               then mkUser (ID row) name email else row)
                   (users w))
              (auto_increment w) (open_handles w) (log w) (faults w)
  | Delete id =>
      mkWorld (filter (fun row => ID row <> id) (users w))
              (auto_increment w) (open_handles w) (log w) (faults w)
  end.

(** The rows a statement that succeeds returns. *)
Definition result_rows (q : stmt) (w : World) : list User :=
  match q with
  | SelectAll => users w
  | SelectByID id => filter (fun row => ID row = id) (users w)
  | _ => []
  end.

(** [sql.Open(driver, dsn)] *)
Definition sql_Open (driver dsn : string) : State World (Result DB) :=
  f <- pop_fault ;;
  match f with
  | Some e => ret (Err e)
  | None => set_handles S ;; emit EvOpen ;; ret (Ok (mkDB driver dsn))
  end.

(** [db.Close()]; its error is not read by the program. *)
Definition Close (db : DB) : State World unit :=
  set_handles Nat.pred ;; emit EvClose.

(** [db.Exec(query, args...)]: a statement that fails changes nothing. *)
Definition Exec (db : DB) (q : stmt) : State World (option error) :=
  emit (EvStmt q) ;;
  f <- pop_fault ;;
  match f with
  | Some e => ret (Some e)
  | None => fun w => (None, apply_stmt q w)
  end.

(** [db.Query(query, args...)]: the cursor is the list of rows not yet
    read. *)
Definition Query (db : DB) (q : stmt) : State World (Result (list User)) :=
  emit (EvStmt q) ;;
  f <- pop_fault ;;
  match f with
  | Some e => ret (Err e)
  | None => fun w => (Ok (result_rows q w), w)
  end.

(** ** Configuration *)

Definition dbDriver := "mysql".
Definition dbUser := "root".
Definition dbPass := "root".
Definition dbName := "gocrud_app".

Definition dbConnection : State World (Result DB) :=
  sql_Open dbDriver (dbUser +:+ ":" +:+ dbPass +:+ "@/" +:+ dbName).

(** ** Data access *)

(** The loop [for rows.Next() { rows.Scan(...); users = append(users, user) }]
    followed by [rows.Err()]. [rows.Next()] returns false at the end of the
    rows and when fetching fails, and then [rows.Err()] tells which. *)
Fixpoint scan_rows (pending : list User) (users : slice User)
  : State World (Result (slice User)) :=
  match pending with
  | [] =>
      f <- pop_fault ;;                         (* rows.Next() is false *)
      match f with
      | Some e => ret (Err e)                   (* rows.Err() != nil *)
      | None => ret (Ok users)
      end
  | row :: rest =>
      f <- pop_fault ;;                         (* rows.Next() *)
      match f with
      | Some e => ret (Err e)                   (* false; rows.Err() != nil *)
      | None =>
          g <- pop_fault ;;                     (* rows.Scan(...) *)
          match g with
          | Some e => ret (Err e)
          | None => scan_rows rest (append users row)
          end
      end
  end.

Definition GetAllUsers (db : DB) : State World (Result (slice User)) :=
  r <- Query db SelectAll ;;
  match r with
  | Err e => ret (Err e)
  | Ok rows => scan_rows rows nil_slice         (* var users []User *)
  end.

Definition CreateUser (db : DB) (name email : string)
  : State World (option error) :=
  Exec db (Insert name email).

(** [db.QueryRow(...)] then [row.Scan(...)]: the error of the query is kept
    in the row and returned by [Scan]; no row is [sql.ErrNoRows]; the first
    row is scanned and the cursor closed. *)
Definition GetUser (db : DB) (id : Z) : State World (Result User) :=
  r <- Query db (SelectByID id) ;;
  match r with
  | Err e => ret (Err e)
  | Ok rows =>
      f <- pop_fault ;;                         (* rows.Next() *)
      match f with
      | Some e => ret (Err e)
      | None =>
          match rows with
          | [] => ret (Err ErrNoRows)
          | row :: _ =>
              g <- pop_fault ;;                 (* rows.Scan(...) *)
              match g with
              | Some e => ret (Err e)
              | None =>
                  h <- pop_fault ;;             (* rows.Close() *)
                  match h with
                  | Some e => ret (Err e)
                  | None => ret (Ok row)
                  end
              end
          end
      end
  end.

Definition UpdateUser (db : DB) (id : Z) (name email : string)
  : State World (option error) :=
  Exec db (Update name email id).

Definition DeleteUser (db : DB) (id : Z) : State World (option error) :=
  Exec db (Delete id).

(** ** [net/http] *)

Definition StatusOK : Z := 200.
Definition StatusCreated : Z := 201.
Definition StatusBadRequest : Z := 400.
Definition StatusNotFound : Z := 404.
Definition StatusInternalServerError : Z := 500.

(** What has been written to the body: text, or the encoding of a JSON
    value followed by a newline. *)
Inductive chunk :=
| Text (s : string)
| JSON (v : json).

(** [http.ResponseWriter]: the header map, the status once the header is
    written, and the body so far. *)
Record ResponseWriter := mkResponse {
  Header : gmap string string;
  status : option Z;
  body : list chunk
}.

Definition new_response : ResponseWriter := mkResponse ∅ None [].

(** [Request]: the route variables [mux.Vars(r)] and the body. *)
Record Request := mkRequest {
  vars : gmap string string;
  Body : option json
}.

(** A handler runs on the response writer and the world. *)
Record St := mkSt { resp : ResponseWriter; world : World }.

Definition liftW {A} (m : State World A) : State St A :=
  fun s => let '(a, w') := m (world s) in (a, mkSt (resp s) w').

Definition liftR {A} (m : State ResponseWriter A) : State St A :=
  fun s => let '(a, r') := m (resp s) in (a, mkSt r' (world s)).

Definition Header_Set (k v : string) : State ResponseWriter unit :=
  fun w => (tt, mkResponse (<[k := v]> (Header w)) (status w) (body w)).

Definition Header_Del (k : string) : State ResponseWriter unit :=
  fun w => (tt, mkResponse (delete k (Header w)) (status w) (body w)).

(** [w.WriteHeader(code)]: only the first call counts. *)
Definition WriteHeader (code : Z) : State ResponseWriter unit :=
  fun w =>
    match status w with
    | Some _ => (tt, w)
    | None => (tt, mkResponse (Header w) (Some code) (body w))
    end.

(** [w.Write(data)]: writes the header with [StatusOK] first if it has not
    been written. *)
Definition Write (c : chunk) : State ResponseWriter unit :=
  WriteHeader StatusOK ;;
  fun w => (tt, mkResponse (Header w) (status w) (body w ++ [c])).

Definition newline : string := String (ascii_of_N 10) EmptyString.

(** [fmt.Fprintln(w, s)] *)
Definition Fprintln (s : string) : State ResponseWriter unit :=
  Write (Text (s +:+ newline)).

(** [json.NewEncoder(w).Encode(v)] *)
Definition Encode (v : json) : State ResponseWriter unit :=
  Write (JSON v).

(** [http.Error(w, msg, code)] *)
Definition http_Error (msg : string) (code : Z) : State ResponseWriter unit :=
  Header_Del "Content-Length" ;;
  Header_Set "Content-Type" "text/plain; charset=utf-8" ;;
  Header_Set "X-Content-Type-Options" "nosniff" ;;
  WriteHeader code ;;
  Fprintln msg.

(** [strconv.Atoi(mux.Vars(r)["id"])]: a key that is absent reads as the
    empty string. *)
Definition parseID (r : Request) : Result Z :=
  strconv.Atoi (default "" (vars r !! "id")).

(** ** The handlers *)

Definition getAllUsersHandler (r : Request) : State St unit :=
  c <- liftW dbConnection ;;
  match c with
  | Err _ =>
      liftR (http_Error "Failed to connect to the database"
                        StatusInternalServerError)
  | Ok db =>
      defer (liftW (Close db)) (
        res <- liftW (GetAllUsers db) ;;
        match res with
        | Err _ => liftR (http_Error "User not found" StatusNotFound)
        | Ok user =>
            liftR (Header_Set "Content-Type" "application/json") ;;
            liftR (Encode (json_of_Users user))
        end)
  end.

Definition createUserHandler (r : Request) : State St unit :=
  c <- liftW dbConnection ;;
  match c with
  | Err _ =>
      liftR (http_Error "Failed to connect to the database"
                        StatusInternalServerError)
  | Ok db =>
      defer (liftW (Close db)) (
        let '(user, err) := Decode (Body r) (mkUser 0 "" "") in
        match err with
        | Some _ => liftR (http_Error "Invalid input" StatusBadRequest)
        | None =>
            match Validate user with
            | Some err => liftR (http_Error (Error_ err) StatusBadRequest)
            | None =>
                e <- liftW (CreateUser db (Name user) (Email user)) ;;
                match e with
                | Some _ =>
                    liftR (http_Error "Failed to create user"
                                      StatusInternalServerError)
                | None =>
                    liftR (WriteHeader StatusCreated) ;;
                    liftR (Fprintln "User created successfully")
                end
            end
        end)
  end.

Definition getUserHandler (r : Request) : State St unit :=
  c <- liftW dbConnection ;;
  match c with
  | Err _ =>
      liftR (http_Error "Failed to connect to the database"
                        StatusInternalServerError)
  | Ok db =>
      defer (liftW (Close db)) (
        match parseID r with
        | Err _ => liftR (http_Error "Invalid user ID" StatusBadRequest)
        | Ok userID =>
            res <- liftW (GetUser db userID) ;;
            match res with
            | Err _ => liftR (http_Error "User not found" StatusNotFound)
            | Ok user =>
                liftR (Header_Set "Content-Type" "application/json") ;;
                liftR (Encode (json_of_User user))
            end
        end)
  end.

Definition updateUserHandler (r : Request) : State St unit :=
  c <- liftW dbConnection ;;
  match c with
  | Err _ =>
      liftR (http_Error "Failed to connect to the database"
                        StatusInternalServerError)
  | Ok db =>
      defer (liftW (Close db)) (
        match parseID r with
        | Err _ => liftR (http_Error "Invalid user ID" StatusBadRequest)
        | Ok userID =>
            let '(user, err) := Decode (Body r) (mkUser 0 "" "") in
            match err with
            | Some _ => liftR (http_Error "Invalid input" StatusBadRequest)
            | None =>
                match Validate user with
                | Some err => liftR (http_Error (Error_ err) StatusBadRequest)
                | None =>
                    e <- liftW (UpdateUser db userID (Name user) (Email user)) ;;
                    match e with
                    | Some _ =>
                        liftR (http_Error "Failed to update user"
                                          StatusInternalServerError)
                    | None => liftR (Fprintln "User updated successfully")
                    end
                end
            end
        end)
  end.

Definition deleteUserHandler (r : Request) : State St unit :=
  c <- liftW dbConnection ;;
  match c with
  | Err _ =>
      liftR (http_Error "Failed to connect to the database"
                        StatusInternalServerError)
  | Ok db =>
      defer (liftW (Close db)) (
        match parseID r with
        | Err _ => liftR (http_Error "Invalid user ID" StatusBadRequest)
        | Ok userID =>
            e <- liftW (DeleteUser db userID) ;;
            match e with
            | Some _ =>
                liftR (http_Error "Failed to delete user"
                                  StatusInternalServerError)
            | None => liftR (Fprintln "User deleted successfully")
            end
        end)
  end.

(** Serving one request: the handler runs on a fresh response writer. *)
Definition serve (h : Request -> State St unit) (r : Request) (w : World)
  : ResponseWriter * World :=
  let s := snd (h r (mkSt new_response w)) in (resp s, world s).


(** ** Predicates the statements below are written with *)

(** A character is in a bracket expression. *)
Definition in_class (items : list class_item) (c : ascii) : Prop :=
  class_has items c = true.

(** The shape of the strings of [email_re], spelled out: a local part, [@],
    a domain part, a dot and a top-level part of two letters or more. *)
Definition email_shape (s : list ascii) : Prop :=
  exists l d t,
    s = l ++ "@"%char :: d ++ "."%char :: t /\
    l <> [] /\ Forall (in_class local_class) l /\
    d <> [] /\ Forall (in_class domain_class) d /\
    (2 <= length t)%nat /\ Forall (in_class alpha_class) t.

(** The outcome of the [n]-th coming call into [database/sql]. *)
Definition fault_at (n : nat) (w : World) : option error :=
  nth n (faults w) None.

(** A store that reports no failure at all. *)
Definition healthy (w : World) : Prop :=
  Forall (fun f => f = None) (faults w).

(** The events of a handler run: what it added to the log. *)
Definition is_stmt (e : event) : bool :=
  match e with
  | EvStmt _ => true
  | _ => false
  end.

(** Sample data. *)
Definition no_vars : gmap string string := ∅.
Definition id_var (id : string) : gmap string string := {[ "id" := id ]}.

Definition empty_store : World := mkWorld [] 1 0 [] [].

Definition two_users : World :=
  mkWorld [mkUser 1 "Ann" "ann@example.com"; mkUser 2 "Bob" "bob@example.org"]
          3 0 [] [].

Definition ann2 : json :=
  JObject [("id", JNumber 1); ("name", JString "Ann2");
           ("email", JString "ann2@example.com")].

(** A decimal numeral with an optional sign, and the integer it denotes. *)
Definition is_digit (c : ascii) : bool :=
  (48 <=? N_of_ascii c)%N && (N_of_ascii c <=? 57)%N.

Definition digit_value (c : ascii) : Z := Z.of_N (N_of_ascii c) - 48.

Definition decimal_from (n : Z) (ds : list ascii) : Z :=
  fold_left (fun n c => n * 10 + digit_value c) ds n.

Definition decimal_value (ds : list ascii) : Z := decimal_from 0 ds.

Definition all_digits (ds : list ascii) : Prop :=
  ds <> [] /\ Forall (fun c => is_digit c = true) ds.

Inductive signed_decimal : string -> Z -> Prop :=
| sd_plain ds :
    all_digits ds ->
    signed_decimal (string_of_list_ascii ds) (decimal_value ds)
| sd_plus ds :
    all_digits ds ->
    signed_decimal (String "+" (string_of_list_ascii ds)) (decimal_value ds)
| sd_minus ds :
    all_digits ds ->
    signed_decimal (String "-" (string_of_list_ascii ds)) (- decimal_value ds).

(** A handler run from [before] to [after] leaves no connection open:
    either it acquired none and the log is as it was, or the log grew by
    an open, statements only, and a close at the very end. *)
Definition released (before after : World) : Prop :=
  open_handles after = open_handles before /\
  ((fault_at 0 before <> None /\ log after = log before) \/
   (fault_at 0 before = None /\
    exists mid,
      log after = log before ++ EvOpen :: mid ++ [EvClose] /\
      Forall (fun e => is_stmt e = true) mid)).

Definition zero_User : User := mkUser 0 "" "".

(** The handle [dbConnection] returns, the world once it has returned, and
    the responses the handlers write on a fresh response writer. *)
Definition db0 : DB :=
  mkDB dbDriver (dbUser +:+ ":" +:+ dbPass +:+ "@/" +:+ dbName).

Definition connected (w : World) : World := snd (dbConnection w).

Definition closed (w : World) : World := snd (Close db0 w).

Definition error_response (msg : string) (code : Z) : ResponseWriter :=
  snd (http_Error msg code new_response).

Definition json_response (v : json) : ResponseWriter :=
  snd ((Header_Set "Content-Type" "application/json" ;; Encode v) new_response).

Definition text_response (code : option Z) (msg : string) : ResponseWriter :=
  snd ((match code with
        | Some c => WriteHeader c
        | None => ret tt
        end ;; Fprintln msg) new_response).

Definition ann : json :=
  JObject [("name", JString "Ann"); ("email", JString "ann@example.com")].

Definition store_down (w : World) : World :=
  mkWorld (users w) (auto_increment w) (open_handles w) (log w)
          [None; Some (StoreError "connection refused")].

Definition ann2_other_id : json :=
  JObject [("id", JNumber 999); ("name", JString "Ann2");
           ("email", JString "ann2@example.com")].

(** ** Predicates on the table and on the log *)

(** The table after [UPDATE users SET name = ?, email = ? WHERE id = ?] and
    after [DELETE FROM users WHERE id = ?]. *)
Definition updated (id : Z) (name email : string) (rows : list User)
  : list User :=
  map (fun row => if decide (ID row = id)
                  then mkUser (ID row) name email else row) rows.

Definition deleted (id : Z) (rows : list User) : list User :=
  filter (fun row => ID row <> id) rows.

(** Every stored row passes [Validate]. *)
Definition valid_rows (w : World) : Prop :=
  Forall (fun row => Validate row = None) (users w).

(** The ids of the rows are pairwise distinct and below the next
    AUTO_INCREMENT value. *)
Definition unique_ids (w : World) : Prop :=
  NoDup (map ID (users w)) /\
  Forall (fun row => ID row < auto_increment w) (users w).

(** The statements of a log, in the order they were sent. *)
Definition stmts (l : list event) : list stmt :=
  omap (fun e => match e with EvStmt q => Some q | _ => None end) l.

(** The first failure, if any, among the outcomes [l]. *)
Fixpoint first_fault (l : list (option error)) : option error :=
  match l with
  | [] => None
  | Some e :: _ => Some e
  | None :: l' => first_fault l'
  end.

Definition all_handlers : list (Request -> State St unit) :=
  [getAllUsersHandler; createUserHandler; getUserHandler;
   updateUserHandler; deleteUserHandler].

Definition carol : json :=
  JObject [("id", JNumber 42); ("name", JString "Carol");
           ("email", JString "carol@example.net")].

Definition no_name : json :=
  JObject [("email", JString "carol@example.net")].

Definition cannot_connect (w : World) : World :=
  mkWorld (users w) (auto_increment w) (open_handles w) (log w)
          [Some (StoreError "unknown driver")].

Definition scan_fails (w : World) : World :=
  mkWorld (users w) (auto_increment w) (open_handles w) (log w)
          [None; None; None; None; None; Some (StoreError "bad row")].

(** A status is one of the listed codes. *)
Definition status_in (codes : list Z) (rsp : ResponseWriter) : Prop :=
  exists c, status rsp = Some c /\ In c codes.

(** ** Tactics for running a handler *)

Ltac unfold_handler :=
  unfold serve, getAllUsersHandler, createUserHandler, getUserHandler,
    updateUserHandler, deleteUserHandler, connected, closed, db0, defer,
    bind, liftW, liftR, dbConnection, sql_Open, Close, bind, ret, pop_fault.

Ltac step :=
  cbn -[GetAllUsers GetUser CreateUser UpdateUser DeleteUser Decode Validate
        parseID insert delete].

Ltac case_call f :=
  match goal with
  | |- context [f ?d ?a ?b ?c ?v] => destruct (f d a b c v) as [[?|] ?]
  | |- context [f ?d ?a ?b ?v] => destruct (f d a b v) as [[?|] ?]
  | |- context [f ?d ?a ?v] => destruct (f d a v) as [[?|] ?]
  | |- context [f ?d ?v] => destruct (f d v) as [[?|?] ?]
  end.

(* ===================================================================== *)
(** * Part II: properties                                                 *)
(* ===================================================================== *)

(** ** The matcher decides the language *)

Module RegexpFacts.

Lemma nullable_matches r : nullable r = true <-> matches r [].
Proof.
  induction r; simpl; split; intros H; try discriminate.
  - inversion H.
  - constructor.
  - reflexivity.
  - inversion H.
  - apply andb_true_iff in H as [H1 H2].
    change (@nil ascii) with (@nil ascii ++ []).
    constructor; [apply IHr1 | apply IHr2]; assumption.
  - inversion H as [| |? ? s1 s2 M1 M2| | | |]; subst.
    match goal with
    | E : s1 ++ s2 = [] |- _ => apply app_eq_nil in E as [-> ->]
    end.
    apply andb_true_iff; split; [apply IHr1 | apply IHr2]; assumption.
  - apply orb_true_iff in H as [H|H];
      [apply MAltL, IHr1 | apply MAltR, IHr2]; assumption.
  - apply orb_true_iff.
    inversion H; subst; [left; apply IHr1 | right; apply IHr2]; assumption.
  - constructor.
  - reflexivity.
Qed.

(** A non-empty word of [r*] starts with a non-empty word of [r]. *)
Lemma star_cons r c s :
  matches (Star r) (c :: s) ->
  exists s1 s2, s = s1 ++ s2 /\ matches r (c :: s1) /\ matches (Star r) s2.
Proof.
  intros H. remember (Star r) as r' eqn:Er. remember (c :: s) as w eqn:Ew.
  revert s Ew.
  induction H as [| | | | | |r0 s1 s2 M1 _ M2 IH2]; intros t Ew;
    try discriminate.
  inversion Er; subst r0.
  destruct s1 as [|c1 s1'].
  - simpl in Ew. apply IH2; [reflexivity | assumption].
  - simpl in Ew. inversion Ew; subst. eauto.
Qed.

Lemma deriv_sound c r : forall s, matches (deriv c r) s -> matches r (c :: s).
Proof.
  induction r; simpl; intros s H.
  - inversion H.
  - inversion H.
  - destruct (class_has items c) eqn:E; inversion H; subst.
    constructor; assumption.
  - destruct (nullable r1) eqn:N.
    + inversion H as [| | |? ? ? M|? ? ? M| |]; subst.
      * inversion M; subst.
        change (c :: s1 ++ s2) with ((c :: s1) ++ s2).
        constructor; [apply IHr1 |]; assumption.
      * change (c :: s) with ([] ++ c :: s).
        constructor; [apply nullable_matches | apply IHr2]; assumption.
    + inversion H; subst.
      change (c :: s1 ++ s2) with ((c :: s1) ++ s2).
      constructor; [apply IHr1 |]; assumption.
  - inversion H; subst; [apply MAltL, IHr1 | apply MAltR, IHr2]; assumption.
  - inversion H; subst.
    change (c :: s1 ++ s2) with ((c :: s1) ++ s2).
    apply MStarS; [apply IHr |]; assumption.
Qed.

Lemma deriv_complete c r : forall s, matches r (c :: s) -> matches (deriv c r) s.
Proof.
  induction r; simpl; intros s H.
  - inversion H.
  - inversion H.
  - inversion H as [|? ? Hc| | | | |]; subst. rewrite Hc. constructor.
  - inversion H as [| |? ? s1 s2 M1 M2 [E1 E2] E| | | |]; subst.
    destruct s1 as [|c1 s1']; simpl in E.
    + subst s2. apply nullable_matches in M1. rewrite M1.
      apply MAltR, IHr2; assumption.
    + inversion E; subst.
      assert (M : matches (Cat (deriv c r1) r2) (s1' ++ s2))
        by (constructor; [apply IHr1 |]; assumption).
      destruct (nullable r1); [apply MAltL |]; assumption.
  - inversion H; subst; [apply MAltL, IHr1 | apply MAltR, IHr2]; assumption.
  - apply star_cons in H as (s1 & s2 & -> & M1 & M2).
    constructor; [apply IHr |]; assumption.
Qed.

Lemma run_matches r s : run r s = true <-> matches r s.
Proof.
  revert r. induction s as [|c s IH]; intros r; simpl.
  - apply nullable_matches.
  - rewrite IH. split; [apply deriv_sound | apply deriv_complete].
Qed.

Lemma run_false r s : run r s = false <-> ~ matches r s.
Proof.
  rewrite <- run_matches. destruct (run r s); split; congruence.
Qed.

End RegexpFacts.

(** ** The strings of [email_re] *)

Section EmailShape.

Lemma matches_cat r1 r2 s :
  matches (Cat r1 r2) s <->
  exists s1 s2, s = s1 ++ s2 /\ matches r1 s1 /\ matches r2 s2.
Proof.
  split.
  - intros H. inversion H; subst. eauto.
  - intros (s1 & s2 & -> & H1 & H2). constructor; assumption.
Qed.

Lemma matches_class items s :
  matches (Class items) s <-> exists c, s = [c] /\ in_class items c.
Proof.
  split.
  - intros H. inversion H; subst. eauto.
  - intros (c & -> & H). constructor. exact H.
Qed.

Lemma single_class c x : in_class [Single c] x <-> x = c.
Proof.
  unfold in_class, class_has, code; simpl. rewrite orb_false_r, N.eqb_eq.
  split; [| intros ->; reflexivity].
  intros E. apply (f_equal ascii_of_N) in E.
  rewrite !ascii_N_embedding in E. exact E.
Qed.

Lemma matches_lit c s : matches (Lit c) s <-> s = [c].
Proof.
  unfold Lit. rewrite matches_class. split.
  - intros (x & -> & H). apply single_class in H. congruence.
  - intros ->. exists c. split; [reflexivity | apply single_class; reflexivity].
Qed.

Lemma matches_star_class items s :
  matches (Star (Class items)) s <-> Forall (in_class items) s.
Proof.
  split.
  - intros H. remember (Star (Class items)) as r eqn:Er.
    induction H as [| | | | | |r0 s1 s2 M1 _ M2 IH2]; try discriminate.
    + constructor.
    + inversion Er; subst r0.
      apply matches_class in M1 as (c & -> & Hc).
      constructor; [exact Hc | apply IH2; reflexivity].
  - induction 1 as [|c s Hc _ IH].
    + constructor.
    + change (c :: s) with ([c] ++ s).
      apply MStarS; [constructor; exact Hc | exact IH].
Qed.

Lemma matches_plus_class items s :
  matches (Plus (Class items)) s <-> s <> [] /\ Forall (in_class items) s.
Proof.
  unfold Plus. rewrite matches_cat. split.
  - intros (s1 & s2 & -> & H1 & H2).
    apply matches_class in H1 as (c & -> & Hc).
    apply matches_star_class in H2.
    split; [discriminate | constructor; assumption].
  - intros [Hne H]. destruct s as [|c s]; [congruence |].
    inversion H; subst.
    exists [c], s. repeat split.
    + constructor; assumption.
    + apply matches_star_class; assumption.
Qed.

Lemma matches_atleast2_class items s :
  matches (AtLeast 2 (Class items)) s <->
  (2 <= length s)%nat /\ Forall (in_class items) s.
Proof.
  simpl. split.
  - intros H.
    apply matches_cat in H as (s1 & s' & -> & H1 & H).
    apply matches_cat in H as (s2 & s3 & -> & H2 & H3).
    apply matches_class in H1 as (c1 & -> & Hc1).
    apply matches_class in H2 as (c2 & -> & Hc2).
    apply matches_star_class in H3.
    split; [simpl; lia | repeat constructor; assumption].
  - intros [Hlen H].
    destruct s as [|c1 [|c2 s]]; simpl in Hlen; try lia.
    inversion H as [|? ? Hc1 H']; subst.
    inversion H' as [|? ? Hc2 H'']; subst.
    change (c1 :: c2 :: s) with ([c1] ++ [c2] ++ s).
    repeat constructor; try assumption.
    apply matches_star_class; assumption.
Qed.

(** The language of [email_re] is the set of strings of the shape
    local-part [@] domain [.] top-level part. *)
Lemma email_re_shape s : matches email_re s <-> email_shape s.
Proof.
  unfold email_re, email_shape. split.
  - intros H.
    apply matches_cat in H as (l & s1 & -> & Hl & H).
    apply matches_cat in H as (a & s2 & -> & Ha & H).
    apply matches_cat in H as (d & s3 & -> & Hd & H).
    apply matches_cat in H as (p & t & -> & Hp & Ht).
    apply matches_lit in Ha as ->. apply matches_lit in Hp as ->.
    apply matches_plus_class in Hl as [Hl1 Hl2].
    apply matches_plus_class in Hd as [Hd1 Hd2].
    apply matches_atleast2_class in Ht as [Ht1 Ht2].
    exists l, d, t. repeat split; assumption.
  - intros (l & d & t & -> & Hl1 & Hl2 & Hd1 & Hd2 & Ht1 & Ht2).
    apply matches_cat. exists l, ("@"%char :: d ++ "."%char :: t).
    split; [reflexivity |].
    split; [apply matches_plus_class; split; assumption |].
    apply matches_cat. exists ["@"%char], (d ++ "."%char :: t).
    split; [reflexivity |].
    split; [apply matches_lit; reflexivity |].
    apply matches_cat. exists d, ("."%char :: t).
    split; [reflexivity |].
    split; [apply matches_plus_class; split; assumption |].
    apply matches_cat. exists ["."%char], t.
    split; [reflexivity |].
    split; [apply matches_lit; reflexivity |].
    apply matches_atleast2_class; split; assumption.
Qed.

Lemma isValidEmail_matches email :
  isValidEmail email = true <->
  matches email_re (list_ascii_of_string email).
Proof. apply RegexpFacts.run_matches. Qed.

Lemma isValidEmail_shape email :
  isValidEmail email = true <-> email_shape (list_ascii_of_string email).
Proof. rewrite isValidEmail_matches. apply email_re_shape. Qed.

End EmailShape.

(** ** Validation *)

(** C1. [Validate] fails on an empty name, then on an empty email, then on
    an email which is not in the language of
    [^[a-zA-Z0-9._%+-]+@[a-zA-Z0-9.-]+\.[a-zA-Z]{2,}$], in that order, and
    succeeds on every user with a non-empty name and an email of that
    language; it rejects [not-an-email] and [a@b] and accepts [a@b.co]. *)
Theorem Validate_spec (u : User) :
  (Name u = "" -> Validate u = Some (errorString "name is required")) /\
  (Name u <> "" -> Email u = "" ->
   Validate u = Some (errorString "email is required")) /\
  (Name u <> "" -> Email u <> "" ->
   ~ matches email_re (list_ascii_of_string (Email u)) ->
   Validate u = Some (errorString "invalid email format")) /\
  (Name u <> "" -> matches email_re (list_ascii_of_string (Email u)) ->
   Validate u = None) /\
  (Name u <> "" -> Email u = "not-an-email" \/ Email u = "a@b" ->
   Validate u = Some (errorString "invalid email format")) /\
  (Name u <> "" -> Email u = "a@b.co" -> Validate u = None).
Proof.
  unfold Validate.
  repeat split.
  - intros ->. reflexivity.
  - intros Hn ->. destruct (decide (Name u = "")); [contradiction | reflexivity].
  - intros Hn He Hm.
    destruct (decide (Name u = "")); [contradiction |].
    destruct (decide (Email u = "")); [contradiction |].
    apply RegexpFacts.run_false in Hm.
    unfold isValidEmail, MatchString. rewrite Hm. reflexivity.
  - intros Hn Hm.
    destruct (decide (Name u = "")); [contradiction |].
    destruct (decide (Email u = "")) as [E|_].
    + rewrite E in Hm. apply RegexpFacts.run_matches in Hm. discriminate.
    + apply RegexpFacts.run_matches in Hm.
      unfold isValidEmail, MatchString. rewrite Hm. reflexivity.
  - intros Hn He.
    destruct (decide (Name u = "")); [contradiction |].
    destruct He as [-> | ->]; reflexivity.
  - intros Hn ->.
    destruct (decide (Name u = "")); [contradiction | reflexivity].
Qed.

Lemma Validate_spec_witness :
  Validate (mkUser 7 "" "a@b.co") = Some (errorString "name is required") /\
  Validate (mkUser 7 "Ann" "") = Some (errorString "email is required") /\
  Validate (mkUser 7 "Ann" "ann@@example.com")
    = Some (errorString "invalid email format") /\
  Validate (mkUser 7 "Ann" "ann@example.com") = None /\
  Validate (mkUser 7 "Ann" "a@b") = Some (errorString "invalid email format") /\
  Validate (mkUser 7 "Ann" "a@b.co") = None.
Proof.
  split.
  { destruct (Validate_spec (mkUser 7 "" "a@b.co")) as (H & _).
    apply H. reflexivity. }
  split.
  { destruct (Validate_spec (mkUser 7 "Ann" "")) as (_ & H & _).
    apply H; [discriminate | reflexivity]. }
  split.
  { destruct (Validate_spec (mkUser 7 "Ann" "ann@@example.com"))
      as (_ & _ & H & _).
    apply H; [discriminate | discriminate |].
    apply RegexpFacts.run_false. reflexivity. }
  split.
  { destruct (Validate_spec (mkUser 7 "Ann" "ann@example.com"))
      as (_ & _ & _ & H & _).
    apply H; [discriminate |].
    apply RegexpFacts.run_matches. reflexivity. }
  split.
  { destruct (Validate_spec (mkUser 7 "Ann" "a@b")) as (_ & _ & _ & _ & H & _).
    apply H; [discriminate | right; reflexivity]. }
  destruct (Validate_spec (mkUser 7 "Ann" "a@b.co")) as (_ & _ & _ & _ & _ & H).
  apply H; [discriminate | reflexivity].
Defined.

(** C9. The email check accepts domains that begin with a dot or consist of
    dots only: [a@..co] and [a@.b.co] are valid, as is every [a@D.co] with
    [D] a non-empty string of domain characters, so [Validate] accepts
    users with such emails. *)
Theorem dotted_domain_accepted :
  isValidEmail "a@..co" = true /\
  isValidEmail "a@.b.co" = true /\
  (forall d, d <> [] -> Forall (in_class domain_class) d ->
     isValidEmail (string_of_list_ascii ("a" :: "@" :: d ++ [".";"c";"o"])%char)
       = true) /\
  (forall id name, name <> "" ->
     Validate (mkUser id name "a@..co") = None /\
     Validate (mkUser id name "a@.b.co") = None).
Proof.
  split; [reflexivity |]. split; [reflexivity |]. split.
  - intros d Hne Hd. apply isValidEmail_shape.
    rewrite list_ascii_of_string_of_list_ascii.
    exists ["a"%char], d, ["c"; "o"]%char.
    repeat split; try assumption; try discriminate.
    + repeat constructor.
    + simpl; lia.
    + repeat constructor.
  - intros id name Hn. unfold Validate; simpl.
    destruct (decide (name = "")); [contradiction |]. split; reflexivity.
Qed.

Lemma dotted_domain_accepted_witness :
  isValidEmail (string_of_list_ascii
                  ("a" :: "@" :: ["."; "."; "-"; "."] ++ [".";"c";"o"])%char)
    = true /\
  Validate (mkUser 1 "Ann" "a@..co") = None.
Proof.
  destruct dotted_domain_accepted as (_ & _ & Hd & Hv).
  split.
  - apply Hd; [discriminate | repeat constructor].
  - apply (Hv 1 "Ann"). discriminate.
Defined.

(** ** The store *)

Section Store.

Implicit Types (w : World) (db : DB) (q : stmt).

Lemma fault_at_0 w : hd None (faults w) = fault_at 0 w.
Proof. unfold fault_at. destruct (faults w); reflexivity. Qed.

Lemma fault_at_tl n w :
  nth n (tl (faults w)) None = fault_at (S n) w.
Proof. unfold fault_at. destruct (faults w); [destruct n |]; reflexivity. Qed.

Lemma healthy_hd w : healthy w -> hd None (faults w) = None.
Proof.
  unfold healthy. intros H.
  destruct (faults w) as [|f fs]; [reflexivity | inversion H; assumption].
Qed.

Lemma healthy_fault_at n w : healthy w -> fault_at n w = None.
Proof.
  unfold healthy, fault_at. intros H. revert n.
  induction H as [|f fs Hf _ IH]; intros [|n]; simpl; auto.
Qed.

Lemma pop_fault_healthy w :
  healthy w ->
  fst (pop_fault w) = None /\ healthy (snd (pop_fault w)).
Proof.
  intros H. split; [apply healthy_hd, H |].
  unfold healthy in *; simpl.
  destruct (faults w) as [|f fs]; [exact H | inversion H; assumption].
Qed.

(** Reading the rows of a cursor touches nothing but the fault schedule. *)
Lemma scan_rows_frame rows : forall acc w,
  let w' := snd (scan_rows rows acc w) in
  users w' = users w /\ auto_increment w' = auto_increment w /\
  open_handles w' = open_handles w /\ log w' = log w.
Proof.
  induction rows as [|row rest IH]; intros acc w; simpl;
    unfold bind, pop_fault, ret; simpl.
  - destruct (hd None (faults w)); simpl; auto.
  - destruct (hd None (faults w)); simpl; auto.
    destruct (hd None (tl (faults w))); simpl; auto.
    match goal with
    | |- context [scan_rows rest ?a ?v] => destruct (IH a v) as (? & ? & ? & ?)
    end.
    simpl in *. auto.
Qed.

Lemma fold_append_Slice (rows l : list User) :
  fold_left append rows (Slice l) = Slice (l ++ rows).
Proof.
  revert l. induction rows as [|row rest IH]; intros l; simpl.
  - rewrite app_nil_r. reflexivity.
  - rewrite IH, <- app_assoc. reflexivity.
Qed.

(** The slice that the loop of [GetAllUsers] builds from [var users []User]. *)
Lemma fold_append_nil (rows : list User) :
  fold_left append rows nil_slice
  = match rows with [] => nil_slice | _ => Slice rows end.
Proof. destruct rows as [|row rest]; simpl; [| rewrite fold_append_Slice]; reflexivity. Qed.

Lemma scan_rows_healthy rows : forall acc w,
  healthy w ->
  fst (scan_rows rows acc w) = Ok (fold_left append rows acc) /\
  healthy (snd (scan_rows rows acc w)).
Proof.
  induction rows as [|row rest IH]; intros acc w H;
    cbn [scan_rows fold_left]; unfold bind, ret.
  - destruct (pop_fault_healthy w H) as [E H1].
    destruct (pop_fault w) as [f w1]. cbn [fst snd] in E, H1. subst f.
    split; [reflexivity | exact H1].
  - destruct (pop_fault_healthy w H) as [E H1].
    destruct (pop_fault w) as [f w1]. cbn [fst snd] in E, H1. subst f.
    destruct (pop_fault_healthy w1 H1) as [E2 H2].
    destruct (pop_fault w1) as [g w2]. cbn [fst snd] in E2, H2. subst g.
    apply IH, H2.
Qed.

Lemma GetAllUsers_frame db w :
  let w' := snd (GetAllUsers db w) in
  users w' = users w /\ auto_increment w' = auto_increment w /\
  open_handles w' = open_handles w /\ log w' = log w ++ [EvStmt SelectAll].
Proof.
  unfold GetAllUsers, Query, bind, emit, pop_fault, ret; simpl.
  destruct (hd None (faults w)); simpl; auto.
  match goal with
  | |- context [scan_rows ?rs ?a ?v] =>
      destruct (scan_rows_frame rs a v) as (? & ? & ? & ?)
  end.
  simpl in *. auto.
Qed.

Lemma GetAllUsers_healthy db w :
  healthy w ->
  fst (GetAllUsers db w)
  = Ok (match users w with [] => nil_slice | _ => Slice (users w) end) /\
  healthy (snd (GetAllUsers db w)).
Proof.
  intros H. unfold GetAllUsers, Query, bind, emit, ret.
  match goal with
  | |- context [pop_fault ?v] =>
      assert (H1 : healthy v) by exact H;
      assert (Eu : users (snd (pop_fault v)) = users w) by reflexivity;
      destruct (pop_fault_healthy v H1) as [E H2];
      destruct (pop_fault v) as [f w2]
  end.
  cbn [fst snd] in E, H2, Eu. subst f.
  unfold result_rows. rewrite Eu, <- fold_append_nil.
  apply scan_rows_healthy, H2.
Qed.

Lemma Exec_frame db q w :
  let w' := snd (Exec db q w) in
  open_handles w' = open_handles w /\ log w' = log w ++ [EvStmt q].
Proof.
  unfold Exec, bind, emit, pop_fault, ret; simpl.
  destruct (hd None (faults w)); simpl; auto.
  destruct q; simpl; auto.
Qed.

Lemma GetUser_frame db id w :
  let w' := snd (GetUser db id w) in
  users w' = users w /\ auto_increment w' = auto_increment w /\
  open_handles w' = open_handles w /\ log w' = log w ++ [EvStmt (SelectByID id)].
Proof.
  unfold GetUser, Query, bind, emit, pop_fault, ret; simpl.
  destruct (hd None (faults w)); simpl; auto.
  destruct (hd None (tl (faults w))); simpl; auto.
  destruct (filter _ (users w)); simpl; auto.
  destruct (hd None (tl (tl (faults w)))); simpl; auto.
  destruct (hd None (tl (tl (tl (faults w))))); simpl; auto.
Qed.

(** A successful [GetUser] returns a stored row that has the id asked for. *)
Lemma GetUser_Ok db id w u :
  fst (GetUser db id w) = Ok u -> In u (users w) /\ ID u = id.
Proof.
  unfold GetUser, Query, bind, emit, pop_fault, ret; simpl.
  destruct (hd None (faults w)); simpl; [discriminate |].
  destruct (hd None (tl (faults w))); simpl; [discriminate |].
  destruct (filter _ (users w)) as [|row rows] eqn:F; simpl; [discriminate |].
  destruct (hd None (tl (tl (faults w)))); simpl; [discriminate |].
  destruct (hd None (tl (tl (tl (faults w))))); simpl; [discriminate |].
  intros [= <-].
  assert (M : row ∈ filter (fun r => ID r = id) (users w))
    by (rewrite F; left).
  apply list_elem_of_filter in M as [M1 M2].
  split; [apply list_elem_of_In, M2 | exact M1].
Qed.

Lemma filter_none (id : Z) (rows : list User) :
  Forall (fun row => ID row <> id) rows ->
  filter (fun row => ID row = id) rows = [].
Proof.
  induction 1 as [|row rest Hr _ IH]; [reflexivity |].
  rewrite filter_cons_False by exact Hr. exact IH.
Qed.

Lemma filter_all (id : Z) (rows : list User) :
  Forall (fun row => ID row <> id) rows ->
  filter (fun row => ID row <> id) rows = rows.
Proof.
  induction 1 as [|row rest Hr _ IH]; [reflexivity |].
  rewrite filter_cons_True by exact Hr. rewrite IH. reflexivity.
Qed.

Lemma update_none (id : Z) (name email : string) (rows : list User) :
  Forall (fun row => ID row <> id) rows ->
  map (fun row => if decide (ID row = id)
                  then mkUser (ID row) name email else row) rows = rows.
Proof.
  induction 1 as [|row rest Hr _ IH]; [reflexivity |].
  simpl. rewrite IH. destruct (decide (ID row = id)); [contradiction | reflexivity].
Qed.

End Store.

(** ** The handlers, run *)

(** Each handler as a function of the outcome of the connection and of its
    data-access call: the monadic code, evaluated. *)
Section Run.

Implicit Types (w : World) (r : Request).

Lemma getAllUsersHandler_run r w :
  serve getAllUsersHandler r w =
  match fault_at 0 w with
  | Some _ =>
      (error_response "Failed to connect to the database"
                      StatusInternalServerError, connected w)
  | None =>
      let '(res, w') := GetAllUsers db0 (connected w) in
      (match res with
       | Err _ => error_response "User not found" StatusNotFound
       | Ok us => json_response (json_of_Users us)
       end, closed w')
  end.
Proof.
  rewrite <- fault_at_0. unfold_handler. step.
  destruct (hd None (faults w)); [reflexivity |]. step.
  case_call GetAllUsers; reflexivity.
Qed.

Lemma createUserHandler_run r w :
  serve createUserHandler r w =
  match fault_at 0 w with
  | Some _ =>
      (error_response "Failed to connect to the database"
                      StatusInternalServerError, connected w)
  | None =>
      let '(user, err) := Decode (Body r) (mkUser 0 "" "") in
      match err, Validate user with
      | Some _, _ =>
          (error_response "Invalid input" StatusBadRequest,
           closed (connected w))
      | None, Some e =>
          (error_response (Error_ e) StatusBadRequest, closed (connected w))
      | None, None =>
          let '(e, w') := CreateUser db0 (Name user) (Email user) (connected w) in
          (match e with
           | Some _ => error_response "Failed to create user"
                                      StatusInternalServerError
           | None => text_response (Some StatusCreated)
                                   "User created successfully"
           end, closed w')
      end
  end.
Proof.
  rewrite <- fault_at_0. unfold_handler. step.
  destruct (hd None (faults w)); [reflexivity |]. step.
  destruct (Decode (Body r) _) as [user [e|]]; [reflexivity |]. step.
  destruct (Validate user); [reflexivity |]. step.
  case_call CreateUser; reflexivity.
Qed.

Lemma getUserHandler_run r w :
  serve getUserHandler r w =
  match fault_at 0 w with
  | Some _ =>
      (error_response "Failed to connect to the database"
                      StatusInternalServerError, connected w)
  | None =>
      match parseID r with
      | Err _ =>
          (error_response "Invalid user ID" StatusBadRequest,
           closed (connected w))
      | Ok userID =>
          let '(res, w') := GetUser db0 userID (connected w) in
          (match res with
           | Err _ => error_response "User not found" StatusNotFound
           | Ok user => json_response (json_of_User user)
           end, closed w')
      end
  end.
Proof.
  rewrite <- fault_at_0. unfold_handler. step.
  destruct (hd None (faults w)); [reflexivity |]. step.
  destruct (parseID r) as [userID|]; [| reflexivity]. step.
  match goal with
  | |- context [GetUser ?d ?i ?v] => destruct (GetUser d i v) as [[?|?] ?]
  end; reflexivity.
Qed.

Lemma updateUserHandler_run r w :
  serve updateUserHandler r w =
  match fault_at 0 w with
  | Some _ =>
      (error_response "Failed to connect to the database"
                      StatusInternalServerError, connected w)
  | None =>
      match parseID r with
      | Err _ =>
          (error_response "Invalid user ID" StatusBadRequest,
           closed (connected w))
      | Ok userID =>
          let '(user, err) := Decode (Body r) (mkUser 0 "" "") in
          match err, Validate user with
          | Some _, _ =>
              (error_response "Invalid input" StatusBadRequest,
               closed (connected w))
          | None, Some e =>
              (error_response (Error_ e) StatusBadRequest,
               closed (connected w))
          | None, None =>
              let '(e, w') :=
                UpdateUser db0 userID (Name user) (Email user) (connected w) in
              (match e with
               | Some _ => error_response "Failed to update user"
                                          StatusInternalServerError
               | None => text_response None "User updated successfully"
               end, closed w')
          end
      end
  end.
Proof.
  rewrite <- fault_at_0. unfold_handler. step.
  destruct (hd None (faults w)); [reflexivity |]. step.
  destruct (parseID r) as [userID|]; [| reflexivity]. step.
  destruct (Decode (Body r) _) as [user [e|]]; [reflexivity |]. step.
  destruct (Validate user); [reflexivity |]. step.
  case_call UpdateUser; reflexivity.
Qed.

Lemma deleteUserHandler_run r w :
  serve deleteUserHandler r w =
  match fault_at 0 w with
  | Some _ =>
      (error_response "Failed to connect to the database"
                      StatusInternalServerError, connected w)
  | None =>
      match parseID r with
      | Err _ =>
          (error_response "Invalid user ID" StatusBadRequest,
           closed (connected w))
      | Ok userID =>
          let '(e, w') := DeleteUser db0 userID (connected w) in
          (match e with
           | Some _ => error_response "Failed to delete user"
                                      StatusInternalServerError
           | None => text_response None "User deleted successfully"
           end, closed w')
      end
  end.
Proof.
  rewrite <- fault_at_0. unfold_handler. step.
  destruct (hd None (faults w)); [reflexivity |]. step.
  destruct (parseID r) as [userID|]; [| reflexivity]. step.
  case_call DeleteUser; reflexivity.
Qed.

(** The world once the connection is open, and once it is closed. *)
Lemma connected_ok w :
  fault_at 0 w = None ->
  users (connected w) = users w /\
  auto_increment (connected w) = auto_increment w /\
  open_handles (connected w) = S (open_handles w) /\
  log (connected w) = log w ++ [EvOpen] /\
  faults (connected w) = tl (faults w).
Proof.
  rewrite <- fault_at_0. intros H.
  unfold connected, dbConnection, sql_Open, bind, pop_fault, ret. cbn.
  rewrite H. cbn. auto.
Qed.

Lemma connected_failed w :
  fault_at 0 w <> None ->
  users (connected w) = users w /\
  auto_increment (connected w) = auto_increment w /\
  open_handles (connected w) = open_handles w /\
  log (connected w) = log w.
Proof.
  rewrite <- fault_at_0. intros H.
  unfold connected, dbConnection, sql_Open, bind, pop_fault, ret. cbn.
  destruct (hd None (faults w)); [| congruence]. cbn. auto.
Qed.

Lemma closed_eq w :
  users (closed w) = users w /\
  auto_increment (closed w) = auto_increment w /\
  open_handles (closed w) = Nat.pred (open_handles w) /\
  log (closed w) = log w ++ [EvClose] /\
  faults (closed w) = faults w.
Proof. cbn. auto. Qed.

Lemma log_closed w : log (closed w) = log w ++ [EvClose].
Proof. reflexivity. Qed.

Lemma users_closed w : users (closed w) = users w.
Proof. reflexivity. Qed.

Lemma fault_at_connected n w :
  fault_at 0 w = None -> fault_at n (connected w) = fault_at (S n) w.
Proof.
  intros H. unfold fault_at at 1.
  destruct (connected_ok w H) as (_ & _ & _ & _ & ->).
  apply fault_at_tl.
Qed.

Lemma healthy_connected w : healthy w -> healthy (connected w).
Proof.
  intros H. unfold healthy.
  destruct (connected_ok w (healthy_fault_at 0 w H)) as (_ & _ & _ & _ & ->).
  unfold healthy in H. destruct (faults w); [exact H | inversion H; assumption].
Qed.

End Run.

(** ** Listing *)

Section Listing.

Implicit Types (w : World) (r : Request).

(** What the List handler answers on a store that reports no failure: the
    array of the rows, and [null] when there is none. *)
Lemma List_response r w :
  healthy w ->
  let rsp := fst (serve getAllUsersHandler r w) in
  status rsp = Some StatusOK /\
  Header rsp !! "Content-Type" = Some "application/json" /\
  body rsp = [JSON (match users w with
                    | [] => JNull
                    | us => JArray (map json_of_User us)
                    end)].
Proof.
  intros H. rewrite getAllUsersHandler_run.
  rewrite (healthy_fault_at 0 w H).
  destruct (GetAllUsers_healthy db0 (connected w) (healthy_connected w H))
    as [E _].
  destruct (connected_ok w (healthy_fault_at 0 w H)) as (Eu & _).
  rewrite Eu in E.
  destruct (GetAllUsers db0 (connected w)) as [res w']. cbn [fst] in E.
  subst res. cbn [fst].
  destruct (users w); (split; [reflexivity |]; split; [| reflexivity]);
    apply lookup_insert_eq.
Qed.

(** C2, as the code behaves. On a table without rows and a store that
    reports no failure, [GetAllUsers] returns no error and a sequence of
    length zero, the nil slice; the List handler answers 200 and writes
    the JSON value [null], which is not the empty array. *)
Theorem List_empty_table r w :
  users w = [] -> healthy w ->
  (exists w', GetAllUsers db0 w = (Ok nil_slice, w')) /\
  len (@nil_slice User) = O /\
  status (fst (serve getAllUsersHandler r w)) = Some StatusOK /\
  body (fst (serve getAllUsersHandler r w)) = [JSON JNull] /\
  JNull <> JArray [].
Proof.
  intros E H.
  split.
  { destruct (GetAllUsers_healthy db0 w H) as [Eg _]. rewrite E in Eg.
    destruct (GetAllUsers db0 w) as [res w']. cbn [fst] in Eg. subst res.
    exists w'. reflexivity. }
  split; [reflexivity |].
  destruct (List_response r w H) as (Hs & _ & Hb). rewrite E in Hb.
  split; [exact Hs |]. split; [exact Hb | discriminate].
Qed.

Lemma List_empty_table_witness :
  status (fst (serve getAllUsersHandler (mkRequest no_vars None) empty_store))
    = Some StatusOK /\
  body (fst (serve getAllUsersHandler (mkRequest no_vars None) empty_store))
    = [JSON JNull].
Proof.
  destruct (List_empty_table (mkRequest no_vars None) empty_store)
    as (_ & _ & Hs & Hb & _).
  - reflexivity.
  - constructor.
  - split; [exact Hs | exact Hb].
Defined.

End Listing.

(** ** Reading one user *)

Section Reading.

Implicit Types (w : World) (r : Request) (db : DB).

Lemma GetUser_missing db id w :
  Forall (fun row => ID row <> id) (users w) ->
  (exists e, fst (GetUser db id w) = Err e) /\
  (fault_at 0 w = None -> fault_at 1 w = None ->
   fst (GetUser db id w) = Err ErrNoRows).
Proof.
  intros Hm. rewrite <- fault_at_0. unfold fault_at.
  unfold GetUser, Query, bind, emit, pop_fault, ret, result_rows.
  destruct (faults w) as [|[e0|] [|[e1|] fs]]; cbn -[filter];
    rewrite ?(filter_none id (users w) Hm); cbn;
    split; eauto; try discriminate.
Qed.

(** C3. For an id that no row has, [GetUser] returns an error and no User
    at all, and that error is [sql.ErrNoRows] when the store reports no
    failure; the Get handler answers 404 whenever [GetUser] returns an
    error, and 200 only with the JSON of a stored row that has the id of
    the path. *)
Theorem Get_not_found r w id :
  (Forall (fun row => ID row <> id) (users w) ->
   forall db,
     (exists e, fst (GetUser db id w) = Err e) /\
     (fault_at 0 w = None -> fault_at 1 w = None ->
      fst (GetUser db id w) = Err ErrNoRows)) /\
  (fault_at 0 w = None -> parseID r = Ok id ->
   (forall e, fst (GetUser db0 id (connected w)) = Err e ->
      status (fst (serve getUserHandler r w)) = Some StatusNotFound) /\
   (Forall (fun row => ID row <> id) (users w) ->
      status (fst (serve getUserHandler r w)) = Some StatusNotFound)) /\
  (status (fst (serve getUserHandler r w)) = Some StatusOK ->
   exists row,
     parseID r = Ok (ID row) /\ In row (users w) /\
     body (fst (serve getUserHandler r w)) = [JSON (json_of_User row)]).
Proof.
  split; [intros Hm db; apply GetUser_missing, Hm |].
  split.
  - intros Hc Hp.
    assert (G : forall e, fst (GetUser db0 id (connected w)) = Err e ->
                status (fst (serve getUserHandler r w)) = Some StatusNotFound).
    { intros e He. rewrite getUserHandler_run, Hc, Hp.
      destruct (GetUser db0 id (connected w)) as [res w']. cbn [fst] in He.
      subst res. reflexivity. }
    split; [exact G |].
    intros Hm.
    destruct (GetUser_missing db0 id (connected w)) as [[e He] _].
    { destruct (connected_ok w Hc) as (-> & _). exact Hm. }
    apply (G e He).
  - rewrite getUserHandler_run.
    destruct (fault_at 0 w) eqn:Hc; [discriminate |].
    destruct (parseID r) as [userID|]; [| discriminate].
    pose proof (GetUser_Ok db0 userID (connected w)) as Hok.
    destruct (GetUser db0 userID (connected w)) as [[user|e] w'];
      [| discriminate].
    intros _. destruct (Hok user eq_refl) as [Hin Hid].
    destruct (connected_ok w Hc) as (Eu & _). rewrite Eu in Hin.
    exists user. subst userID. auto.
Qed.

Lemma Get_not_found_witness :
  fst (GetUser db0 7 two_users) = Err ErrNoRows /\
  status (fst (serve getUserHandler (mkRequest (id_var "7") None) two_users))
    = Some StatusNotFound /\
  exists row,
    parseID (mkRequest (id_var "2") None) = Ok (ID row) /\
    In row (users two_users) /\
    body (fst (serve getUserHandler (mkRequest (id_var "2") None) two_users))
    = [JSON (json_of_User row)].
Proof.
  assert (Hm : Forall (fun row => ID row <> 7) (users two_users))
    by (repeat constructor; discriminate).
  split.
  { destruct (Get_not_found (mkRequest (id_var "7") None) two_users 7)
      as (H & _).
    apply (H Hm db0); reflexivity. }
  split.
  { destruct (Get_not_found (mkRequest (id_var "7") None) two_users 7)
      as (_ & H & _).
    apply H; [reflexivity | reflexivity | exact Hm]. }
  destruct (Get_not_found (mkRequest (id_var "2") None) two_users 2)
    as (_ & _ & H).
  apply H. reflexivity.
Defined.

End Reading.

(** ** Updating and deleting *)

Section Writing.

Implicit Types (w : World) (r : Request) (db : DB).

Lemma Exec_result db q w : fst (Exec db q w) = fault_at 0 w.
Proof.
  rewrite <- fault_at_0. unfold Exec, bind, emit, pop_fault, ret. cbn.
  destruct (hd None (faults w)); reflexivity.
Qed.

Lemma Exec_users db q w :
  users (snd (Exec db q w))
  = match fault_at 0 w with
    | Some _ => users w
    | None => users (apply_stmt q w)
    end.
Proof.
  rewrite <- fault_at_0. unfold Exec, bind, emit, pop_fault, ret. cbn.
  destruct (hd None (faults w)); [reflexivity |]. destruct q; reflexivity.
Qed.

(** C4. When the store reports no failure, [UpdateUser] and [DeleteUser]
    return no error whether or not a row has the id, so a miss returns
    what a hit returns; and when no row has the id the table is left as it
    was. *)
Theorem Update_Delete_miss db id name email w :
  fault_at 0 w = None ->
  fst (UpdateUser db id name email w) = None /\
  fst (DeleteUser db id w) = None /\
  (Forall (fun row => ID row <> id) (users w) ->
   users (snd (UpdateUser db id name email w)) = users w /\
   users (snd (DeleteUser db id w)) = users w).
Proof.
  intros H. unfold UpdateUser, DeleteUser.
  rewrite !Exec_result, !Exec_users, H.
  split; [reflexivity |]. split; [reflexivity |].
  intros Hm. cbn. split; [apply update_none | apply filter_all]; exact Hm.
Qed.

Lemma Update_Delete_miss_witness :
  fst (UpdateUser db0 7 "Zed" "zed@example.com" two_users) = None /\
  fst (UpdateUser db0 2 "Zed" "zed@example.com" two_users) = None /\
  fst (DeleteUser db0 7 two_users) = None /\
  users (snd (UpdateUser db0 7 "Zed" "zed@example.com" two_users))
    = users two_users /\
  users (snd (DeleteUser db0 7 two_users)) = users two_users.
Proof.
  destruct (Update_Delete_miss db0 7 "Zed" "zed@example.com" two_users)
    as (Hu & Hd & Hm); [reflexivity |].
  destruct (Update_Delete_miss db0 2 "Zed" "zed@example.com" two_users)
    as (Hu2 & _); [reflexivity |].
  destruct Hm as [Hmu Hmd]; [repeat constructor; discriminate |].
  repeat split; assumption.
Defined.

End Writing.

(** ** [strconv.Atoi] reads signed decimal numerals that fit an [int] *)

Section Atoi.

Import strconv.

Lemma maxUint64_val : maxUint64 = 18446744073709551615.
Proof. reflexivity. Qed.

Lemma maxInt_val : maxInt = 9223372036854775807.
Proof. reflexivity. Qed.

Lemma minInt_val : minInt = -9223372036854775808.
Proof. reflexivity. Qed.

Lemma digit_is_digit c :
  digit c = if is_digit c then Some (digit_value c) else None.
Proof.
  unfold digit, is_digit, digit_value.
  destruct (Z.leb_spec 48 (Z.of_N (N_of_ascii c))),
           (Z.leb_spec (Z.of_N (N_of_ascii c)) 57),
           (N.leb_spec 48 (N_of_ascii c)),
           (N.leb_spec (N_of_ascii c) 57); simpl; try reflexivity; lia.
Qed.

Lemma digit_value_range c : is_digit c = true -> 0 <= digit_value c <= 9.
Proof.
  unfold is_digit, digit_value. intros H.
  apply andb_true_iff in H as [H1 H2].
  apply N.leb_le in H1, H2. lia.
Qed.

Lemma decimal_from_le ds : forall n,
  Forall (fun c => is_digit c = true) ds -> 0 <= n -> n <= decimal_from n ds.
Proof.
  unfold decimal_from.
  induction ds as [|c ds IH]; intros n H Hn; simpl; [lia |].
  inversion H as [|? ? Hc Hds]; subst.
  pose proof (digit_value_range c Hc).
  specialize (IH (n * 10 + digit_value c) Hds). lia.
Qed.

Lemma parse_digits_ok ds : forall n,
  Forall (fun c => is_digit c = true) ds -> 0 <= n ->
  decimal_from n ds <= maxUint64 ->
  parse_digits n ds = UOk (decimal_from n ds).
Proof.
  induction ds as [|c ds IH]; intros n H Hn Hmax; [reflexivity |].
  inversion H as [|? ? Hc Hds]; subst.
  pose proof (digit_value_range c Hc).
  assert (Hle := decimal_from_le ds (n * 10 + digit_value c) Hds).
  cbn [parse_digits]. rewrite digit_is_digit, Hc.
  change (decimal_from n (c :: ds))
    with (decimal_from (n * 10 + digit_value c) ds) in *.
  destruct (Z.ltb_spec maxUint64 (n * 10 + digit_value c)); [lia |].
  apply IH; [assumption | lia | assumption].
Qed.

Lemma parse_digits_range ds : forall n,
  Forall (fun c => is_digit c = true) ds -> 0 <= n <= maxUint64 ->
  maxUint64 < decimal_from n ds ->
  parse_digits n ds = URange.
Proof.
  induction ds as [|c ds IH]; intros n H Hn Hmax.
  - unfold decimal_from in Hmax. simpl in Hmax. lia.
  - inversion H as [|? ? Hc Hds]; subst.
    pose proof (digit_value_range c Hc).
    cbn [parse_digits]. rewrite digit_is_digit, Hc.
    change (decimal_from n (c :: ds))
      with (decimal_from (n * 10 + digit_value c) ds) in *.
    destruct (Z.ltb_spec maxUint64 (n * 10 + digit_value c)); [reflexivity |].
    apply IH; [assumption | lia | assumption].
Qed.

Lemma parse_digits_UOk ds : forall n v,
  parse_digits n ds = UOk v ->
  Forall (fun c => is_digit c = true) ds /\ v = decimal_from n ds.
Proof.
  induction ds as [|c ds IH]; intros n v H.
  - inversion H. split; [constructor | reflexivity].
  - cbn [parse_digits] in H. rewrite digit_is_digit in H.
    destruct (is_digit c) eqn:Hc; [| discriminate].
    destruct (maxUint64 <? n * 10 + digit_value c); [discriminate |].
    apply IH in H as [Hds ->].
    split; [constructor; assumption | reflexivity].
Qed.

Lemma split_sign_digits ds :
  all_digits ds -> split_sign ds = (false, ds).
Proof.
  intros [Hne H]. destruct ds as [|c ds]; [congruence |].
  inversion H as [|? ? Hc _]; subst. unfold split_sign.
  destruct (Ascii.eqb_spec c "-") as [->|_]; [discriminate |].
  destruct (Ascii.eqb_spec c "+") as [->|_]; [discriminate |].
  reflexivity.
Qed.

Lemma decimal_value_nonneg ds :
  Forall (fun c => is_digit c = true) ds -> 0 <= decimal_value ds.
Proof. intros H. apply (decimal_from_le ds 0 H). lia. Qed.

(** The numerals [Atoi] accepts, and what it returns for them. *)
Lemma Atoi_Ok s v :
  signed_decimal s v -> minInt <= v <= maxInt -> Atoi s = Ok v.
Proof.
  intros Hs Hr. unfold Atoi.
  destruct Hs as [ds Hd | ds Hd | ds Hd];
    pose proof (decimal_value_nonneg ds (proj2 Hd)) as Hv;
    cbn [list_ascii_of_string]; rewrite list_ascii_of_string_of_list_ascii;
    [ rewrite (split_sign_digits ds Hd)
    | cbn [split_sign]; change ("+" =? "-")%char with false;
      change ("+" =? "+")%char with true; cbv iota
    | cbn [split_sign]; change ("-" =? "-")%char with true; cbv iota ];
    destruct Hd as [Hne Hd]; (destruct ds as [|c ds]; [congruence |]);
    unfold decimal_value in *;
    rewrite minInt_val, maxInt_val in Hr;
    (rewrite (parse_digits_ok _ 0 Hd) by (rewrite ?maxUint64_val; lia));
    match goal with
    | |- context [(minInt <=? ?x) && (?x <=? maxInt)] =>
        destruct (Z.leb_spec minInt x), (Z.leb_spec x maxInt)
    end;
    rewrite ?minInt_val, ?maxInt_val in *; try lia; reflexivity.
Qed.

(** A numeral outside the range of [int] is refused. *)
Lemma Atoi_out_of_range s v :
  signed_decimal s v -> ~ (minInt <= v <= maxInt) ->
  exists e, Atoi s = Err e.
Proof.
  intros Hs Hr.
  destruct (Atoi s) as [v'|e] eqn:E; [| eauto].
  exfalso. apply Hr. clear Hr.
  revert E. unfold Atoi.
  destruct Hs as [ds Hd | ds Hd | ds Hd];
    cbn [list_ascii_of_string]; rewrite list_ascii_of_string_of_list_ascii.
  - rewrite (split_sign_digits ds Hd).
    destruct Hd as [Hne Hd]. destruct ds as [|c ds]; [congruence |].
    destruct (parse_digits 0 (c :: ds)) as [un| |] eqn:P; try discriminate.
    apply parse_digits_UOk in P as [_ ->]. fold (decimal_value (c :: ds)).
    destruct (Z.leb_spec minInt (decimal_value (c :: ds))),
             (Z.leb_spec (decimal_value (c :: ds)) maxInt);
      try discriminate. intros _. lia.
  - cbn [split_sign]. change ("+" =? "-")%char with false.
    change ("+" =? "+")%char with true. cbv iota.
    destruct Hd as [Hne Hd]. destruct ds as [|c ds]; [congruence |].
    destruct (parse_digits 0 (c :: ds)) as [un| |] eqn:P; try discriminate.
    apply parse_digits_UOk in P as [_ ->]. fold (decimal_value (c :: ds)).
    destruct (Z.leb_spec minInt (decimal_value (c :: ds))),
             (Z.leb_spec (decimal_value (c :: ds)) maxInt);
      try discriminate. intros _. lia.
  - cbn [split_sign]. change ("-" =? "-")%char with true. cbv iota.
    destruct Hd as [Hne Hd]. destruct ds as [|c ds]; [congruence |].
    destruct (parse_digits 0 (c :: ds)) as [un| |] eqn:P; try discriminate.
    apply parse_digits_UOk in P as [_ ->]. fold (decimal_value (c :: ds)).
    destruct (Z.leb_spec minInt (- decimal_value (c :: ds))),
             (Z.leb_spec (- decimal_value (c :: ds)) maxInt);
      try discriminate. intros _. lia.
Qed.

(** Whatever [Atoi] accepts is a signed decimal numeral within range. *)
Lemma Atoi_Ok_inv s v :
  Atoi s = Ok v -> signed_decimal s v /\ minInt <= v <= maxInt.
Proof.
  intros H. rewrite <- (string_of_list_ascii_of_string s).
  revert H. unfold Atoi.
  destruct (list_ascii_of_string s) as [|c l]; [discriminate |].
  unfold split_sign.
  destruct (Ascii.eqb_spec c "-") as [->|Hm].
  - destruct l as [|c1 l]; [discriminate |].
    destruct (parse_digits 0 (c1 :: l)) as [un| |] eqn:P; try discriminate.
    apply parse_digits_UOk in P as [Hd ->]. fold (decimal_value (c1 :: l)).
    destruct (Z.leb_spec minInt (- decimal_value (c1 :: l))),
             (Z.leb_spec (- decimal_value (c1 :: l)) maxInt);
      try discriminate.
    intros [= <-]. split; [| lia].
    apply (sd_minus (c1 :: l)). split; [discriminate | exact Hd].
  - destruct (Ascii.eqb_spec c "+") as [->|Hp].
    + destruct l as [|c1 l]; [discriminate |].
      destruct (parse_digits 0 (c1 :: l)) as [un| |] eqn:P; try discriminate.
      apply parse_digits_UOk in P as [Hd ->]. fold (decimal_value (c1 :: l)).
      destruct (Z.leb_spec minInt (decimal_value (c1 :: l))),
               (Z.leb_spec (decimal_value (c1 :: l)) maxInt);
        try discriminate.
      intros [= <-]. split; [| lia].
      apply (sd_plus (c1 :: l)). split; [discriminate | exact Hd].
    + destruct (parse_digits 0 (c :: l)) as [un| |] eqn:P; try discriminate.
      apply parse_digits_UOk in P as [Hd ->]. fold (decimal_value (c :: l)).
      destruct (Z.leb_spec minInt (decimal_value (c :: l))),
               (Z.leb_spec (decimal_value (c :: l)) maxInt);
        try discriminate.
      intros [= <-]. split; [| lia].
      apply (sd_plain (c :: l)). split; [discriminate | exact Hd].
Qed.

(** A segment that is no signed decimal numeral is refused. *)
Lemma Atoi_not_numeral s :
  (forall v, ~ signed_decimal s v) -> exists e, Atoi s = Err e.
Proof.
  intros H. destruct (Atoi s) as [v|e] eqn:E; [| eauto].
  apply Atoi_Ok_inv in E as [E _]. destruct (H v E).
Qed.

End Atoi.

(** ** Path ids *)

Section PathID.

Implicit Types (w : World) (r : Request).

Lemma parse_failure_run r w e :
  fault_at 0 w = None -> parseID r = Err e ->
  Forall (fun h =>
            serve h r w
            = (error_response "Invalid user ID" StatusBadRequest,
               closed (connected w)))
         [getUserHandler; updateUserHandler; deleteUserHandler].
Proof.
  intros Hc Hp. repeat constructor.
  - rewrite getUserHandler_run, Hc, Hp. reflexivity.
  - rewrite updateUserHandler_run, Hc, Hp. reflexivity.
  - rewrite deleteUserHandler_run, Hc, Hp. reflexivity.
Qed.

(** C5. When the connection has been acquired and the id segment of the
    path does not parse as an integer (a segment that is no signed decimal
    numeral, such as [abc], does not), the Get, Update and Delete handlers
    answer 400 Bad Request, and no statement has been sent to the store:
    the log shows the open and the close only, the table is as it was and
    no outcome of a store call has been consumed. *)
Theorem bad_id_is_400 r w :
  fault_at 0 w = None ->
  ((forall v, ~ signed_decimal (default "" (vars r !! "id")) v) ->
   exists e, parseID r = Err e) /\
  (forall e, parseID r = Err e ->
   Forall (fun h =>
             status (fst (serve h r w)) = Some StatusBadRequest /\
             body (fst (serve h r w)) = [Text ("Invalid user ID" +:+ newline)] /\
             users (snd (serve h r w)) = users w /\
             log (snd (serve h r w)) = log w ++ [EvOpen; EvClose] /\
             faults (snd (serve h r w)) = tl (faults w))
          [getUserHandler; updateUserHandler; deleteUserHandler]).
Proof.
  intros Hc. split; [apply Atoi_not_numeral |].
  intros e Hp.
  eapply Forall_impl; [apply (parse_failure_run r w e Hc Hp) |].
  intros h ->. cbn [fst snd].
  destruct (closed_eq (connected w)) as (-> & _ & _ & -> & ->).
  destruct (connected_ok w Hc) as (-> & _ & _ & -> & ->).
  rewrite <- app_assoc. repeat split; reflexivity.
Qed.

Lemma bad_id_is_400_witness :
  Forall (fun h =>
            status (fst (serve h (mkRequest (id_var "abc") None) two_users))
              = Some StatusBadRequest /\
            log (snd (serve h (mkRequest (id_var "abc") None) two_users))
              = [EvOpen; EvClose])
         [getUserHandler; updateUserHandler; deleteUserHandler].
Proof.
  destruct (bad_id_is_400 (mkRequest (id_var "abc") None) two_users eq_refl)
    as [_ H].
  eapply Forall_impl; [apply (H (ErrSyntax "Atoi" "abc") eq_refl) |].
  intros h (Hs & _ & _ & Hl & _). split; [exact Hs | exact Hl].
Defined.

(** C10, amended. [parseID] accepts every signed decimal numeral whose
    value fits an [int], zero and negatives included, and returns its
    value; the Get, Update and Delete handlers then do not answer 400 for
    the id and send their statement with that integer. *)
Theorem parseID_accepts_signed r w s v :
  vars r !! "id" = Some s -> signed_decimal s v ->
  strconv.minInt <= v <= strconv.maxInt ->
  parseID r = Ok v /\
  (fault_at 0 w = None ->
   (status (fst (serve getUserHandler r w)) <> Some StatusBadRequest /\
    log (snd (serve getUserHandler r w))
    = log w ++ [EvOpen; EvStmt (SelectByID v); EvClose]) /\
   (status (fst (serve deleteUserHandler r w)) <> Some StatusBadRequest /\
    log (snd (serve deleteUserHandler r w))
    = log w ++ [EvOpen; EvStmt (Delete v); EvClose]) /\
   (forall u, Decode (Body r) zero_User = (u, None) -> Validate u = None ->
    status (fst (serve updateUserHandler r w)) <> Some StatusBadRequest /\
    log (snd (serve updateUserHandler r w))
    = log w ++ [EvOpen; EvStmt (Update (Name u) (Email u) v); EvClose])).
Proof.
  intros Hv Hs Hr.
  assert (Hp : parseID r = Ok v).
  { unfold parseID. rewrite Hv. apply Atoi_Ok; assumption. }
  split; [exact Hp |]. intros Hc.
  destruct (connected_ok w Hc) as (_ & _ & _ & El & _).
  split; [| split].
  - rewrite getUserHandler_run, Hc, Hp.
    pose proof (GetUser_frame db0 v (connected w)) as (_ & _ & _ & Fl).
    destruct (GetUser db0 v (connected w)) as [[u|e] w']; cbn [fst snd] in *;
      (split; [discriminate |]);
      rewrite log_closed, Fl, El, <- !app_assoc; reflexivity.
  - rewrite deleteUserHandler_run, Hc, Hp.
    pose proof (Exec_frame db0 (Delete v) (connected w)) as (_ & Fl).
    unfold DeleteUser.
    destruct (Exec db0 (Delete v) (connected w)) as [[e|] w'];
      cbn [fst snd] in *; (split; [discriminate |]);
      rewrite log_closed, Fl, El, <- !app_assoc; reflexivity.
  - intros u Hd Hval.
    rewrite updateUserHandler_run, Hc, Hp.
    unfold zero_User in Hd. rewrite Hd, Hval.
    pose proof (Exec_frame db0 (Update (Name u) (Email u) v) (connected w))
      as (_ & Fl).
    unfold UpdateUser.
    destruct (Exec db0 (Update (Name u) (Email u) v) (connected w))
      as [[e|] w'];
      cbn [fst snd] in *; (split; [discriminate |]);
      rewrite log_closed, Fl, El, <- !app_assoc; reflexivity.
Qed.

Lemma parseID_accepts_signed_witness :
  parseID (mkRequest (id_var "-5") None) = Ok (-5) /\
  parseID (mkRequest (id_var "+7") None) = Ok 7 /\
  parseID (mkRequest (id_var "0") None) = Ok 0 /\
  log (snd (serve getUserHandler (mkRequest (id_var "-5") None) two_users))
  = [EvOpen; EvStmt (SelectByID (-5)); EvClose].
Proof.
  split.
  { apply (parseID_accepts_signed (mkRequest (id_var "-5") None) two_users
             "-5" (-5) eq_refl);
      [apply (sd_minus ["5"%char]); split;
         [discriminate | repeat constructor]
      | split; discriminate]. }
  split.
  { apply (parseID_accepts_signed (mkRequest (id_var "+7") None) two_users
             "+7" 7 eq_refl);
      [apply (sd_plus ["7"%char]); split;
         [discriminate | repeat constructor]
      | split; discriminate]. }
  split.
  { apply (parseID_accepts_signed (mkRequest (id_var "0") None) two_users
             "0" 0 eq_refl);
      [apply (sd_plain ["0"%char]); split;
         [discriminate | repeat constructor]
      | split; discriminate]. }
  destruct (parseID_accepts_signed (mkRequest (id_var "-5") None) two_users
              "-5" (-5) eq_refl) as [_ H].
  - apply (sd_minus ["5"%char]). split; [discriminate | repeat constructor].
  - split; discriminate.
  - destruct (H eq_refl) as ((_ & Hl) & _). exact Hl.
Defined.

(** C10, as stated, fails: [9223372036854775808] is a signed decimal
    numeral, [parseID] refuses it and the Get handler answers 400 without
    sending a statement. *)
Lemma parseID_rejects_big :
  signed_decimal "9223372036854775808" 9223372036854775808 /\
  parseID (mkRequest (id_var "9223372036854775808") None)
  = Err (ErrRange "Atoi" "9223372036854775808") /\
  status (fst (serve getUserHandler
                     (mkRequest (id_var "9223372036854775808") None)
                     two_users))
  = Some StatusBadRequest /\
  log (snd (serve getUserHandler
                  (mkRequest (id_var "9223372036854775808") None)
                  two_users))
  = [EvOpen; EvClose].
Proof.
  split.
  - apply (sd_plain (list_ascii_of_string "9223372036854775808")).
    split; [discriminate | repeat constructor].
  - repeat split; reflexivity.
Qed.

End PathID.

(** ** Create and Update *)

Section CreateUpdate.

Implicit Types (w : World) (r : Request) (u : User).

(** C6. When the connection is acquired and the body decodes to a valid
    user, the Create handler answers 201 with the text
    [User created successfully] if the insert returns no error and 500 if
    it returns one; the Update handler, for a path id that parses, answers
    with the default status 200 and the text [User updated successfully]
    if the update returns no error and 500 if it returns one. Neither sets
    a content type of its own on success. *)
Theorem Create_Update_responses r w u :
  fault_at 0 w = None ->
  Decode (Body r) zero_User = (u, None) -> Validate u = None ->
  let c := fst (serve createUserHandler r w) in
  (fst (CreateUser db0 (Name u) (Email u) (connected w)) = None ->
   status c = Some StatusCreated /\
   body c = [Text ("User created successfully" +:+ newline)] /\
   Header c = ∅) /\
  (forall e, fst (CreateUser db0 (Name u) (Email u) (connected w)) = Some e ->
   status c = Some StatusInternalServerError) /\
  (fault_at 1 w = None ->
   fst (CreateUser db0 (Name u) (Email u) (connected w)) = None) /\
  forall id, parseID r = Ok id ->
    let p := fst (serve updateUserHandler r w) in
    (fst (UpdateUser db0 id (Name u) (Email u) (connected w)) = None ->
     status p = Some StatusOK /\
     body p = [Text ("User updated successfully" +:+ newline)] /\
     Header p = ∅) /\
    (forall e,
       fst (UpdateUser db0 id (Name u) (Email u) (connected w)) = Some e ->
       status p = Some StatusInternalServerError) /\
    (fault_at 1 w = None ->
     fst (UpdateUser db0 id (Name u) (Email u) (connected w)) = None).
Proof.
  intros Hc Hd Hv. unfold zero_User in Hd. cbv zeta.
  rewrite createUserHandler_run, Hc, Hd, Hv.
  split; [| split; [| split]].
  - destruct (CreateUser db0 (Name u) (Email u) (connected w)) as [e w'].
    cbn [fst]. intros ->. repeat split.
  - intros e.
    destruct (CreateUser db0 (Name u) (Email u) (connected w)) as [e' w'].
    cbn [fst]. intros ->. reflexivity.
  - intros H1. unfold CreateUser.
    rewrite Exec_result, fault_at_connected by exact Hc. exact H1.
  - intros id Hp. rewrite updateUserHandler_run, Hc, Hp, Hd, Hv.
    split; [| split].
    + destruct (UpdateUser db0 id (Name u) (Email u) (connected w)) as [e w'].
      cbn [fst]. intros ->. repeat split.
    + intros e.
      destruct (UpdateUser db0 id (Name u) (Email u) (connected w))
        as [e' w'].
      cbn [fst]. intros ->. reflexivity.
    + intros H1. unfold UpdateUser.
      rewrite Exec_result, fault_at_connected by exact Hc. exact H1.
Qed.

Lemma Create_Update_responses_witness :
  status (fst (serve createUserHandler (mkRequest (id_var "2") (Some ann))
                     two_users)) = Some StatusCreated /\
  status (fst (serve updateUserHandler (mkRequest (id_var "2") (Some ann))
                     two_users)) = Some StatusOK /\
  status (fst (serve createUserHandler (mkRequest (id_var "2") (Some ann))
                     (store_down two_users)))
  = Some StatusInternalServerError /\
  status (fst (serve updateUserHandler (mkRequest (id_var "2") (Some ann))
                     (store_down two_users)))
  = Some StatusInternalServerError.
Proof.
  destruct (Create_Update_responses (mkRequest (id_var "2") (Some ann))
              two_users (mkUser 0 "Ann" "ann@example.com")
              eq_refl eq_refl eq_refl) as (Hc & _ & _ & Hu).
  destruct (Create_Update_responses (mkRequest (id_var "2") (Some ann))
              (store_down two_users) (mkUser 0 "Ann" "ann@example.com")
              eq_refl eq_refl eq_refl) as (_ & Hc' & _ & Hu').
  destruct (Hc eq_refl) as (Hs & _).
  destruct (Hu 2 eq_refl) as (Hu1 & _). destruct (Hu1 eq_refl) as (Hs2 & _).
  destruct (Hu' 2 eq_refl) as (_ & Hu2 & _).
  split; [exact Hs |]. split; [exact Hs2 |].
  split; [apply (Hc' (StoreError "connection refused")); reflexivity |].
  apply (Hu2 (StoreError "connection refused")). reflexivity.
Defined.

Lemma Validate_ext u1 u2 :
  Name u1 = Name u2 -> Email u1 = Email u2 -> Validate u1 = Validate u2.
Proof. unfold Validate. intros -> ->. reflexivity. Qed.

(** What an Update request does to the table: nothing, or the update of
    the rows that have the id of the path. *)
Lemma Update_users r w :
  users (snd (serve updateUserHandler r w)) = users w \/
  exists id name email,
    parseID r = Ok id /\
    users (snd (serve updateUserHandler r w))
    = map (fun row => if decide (ID row = id)
                      then mkUser (ID row) name email else row) (users w).
Proof.
  rewrite updateUserHandler_run.
  destruct (fault_at 0 w) eqn:Hc.
  { left. apply connected_failed. congruence. }
  destruct (connected_ok w Hc) as (Eu & _).
  destruct (parseID r) as [id|]; [| left; exact Eu].
  destruct (Decode (Body r) _) as [u [e|]]; [left; exact Eu |].
  destruct (Validate u); [left; exact Eu |].
  pose proof (Exec_users db0 (Update (Name u) (Email u) id) (connected w))
    as Hx.
  unfold UpdateUser.
  destruct (Exec db0 (Update (Name u) (Email u) id) (connected w))
    as [e w'].
  cbn [fst snd] in *. rewrite users_closed, Hx.
  destruct (fault_at 0 (connected w)); [left; exact Eu |].
  right. exists id, (Name u), (Email u). cbn. rewrite Eu. auto.
Qed.

(** C7. Whatever the request, Update leaves every row where it was with
    the id it had, and leaves the row itself as it was unless its id is
    the id of the path; of the decoded body only the name and the email
    are used, so two bodies that decode to users with the same name and
    email, whatever their id fields, lead to the same response and the
    same store. *)
Theorem Update_frame r w :
  (forall i row,
     users w !! i = Some row ->
     exists row',
       users (snd (serve updateUserHandler r w)) !! i = Some row' /\
       ID row' = ID row /\
       (parseID r <> Ok (ID row) -> row' = row)) /\
  length (users (snd (serve updateUserHandler r w))) = length (users w) /\
  (forall r2 u u2,
     vars r2 = vars r ->
     Decode (Body r) zero_User = (u, None) ->
     Decode (Body r2) zero_User = (u2, None) ->
     Name u2 = Name u -> Email u2 = Email u ->
     serve updateUserHandler r2 w = serve updateUserHandler r w).
Proof.
  split; [| split].
  - intros i row Hi.
    destruct (Update_users r w) as [-> | (id & name & email & Hp & ->)].
    + exists row. auto.
    + rewrite list_lookup_fmap, Hi. cbn.
      destruct (decide (ID row = id)) as [E|N].
      * eexists. split; [reflexivity |]. split; [reflexivity |].
        intros Hne. rewrite Hp, E in Hne. congruence.
      * exists row. auto.
  - destruct (Update_users r w) as [-> | (id & name & email & _ & ->)];
      [reflexivity | apply length_map].
  - intros r2 u u2 Hv Hd Hd2 Hn He. unfold zero_User in *.
    rewrite !updateUserHandler_run. unfold parseID.
    rewrite Hv, Hd, Hd2, (Validate_ext u2 u Hn He), Hn, He. reflexivity.
Qed.

Lemma Update_frame_witness :
  (exists row',
     users (snd (serve updateUserHandler (mkRequest (id_var "2") (Some ann2))
                       two_users)) !! 0%nat = Some row' /\
     ID row' = 1 /\ row' = mkUser 1 "Ann" "ann@example.com") /\
  serve updateUserHandler (mkRequest (id_var "2") (Some ann2_other_id))
        two_users
  = serve updateUserHandler (mkRequest (id_var "2") (Some ann2)) two_users.
Proof.
  destruct (Update_frame (mkRequest (id_var "2") (Some ann2)) two_users)
    as (H1 & _ & H3).
  split.
  - destruct (H1 0%nat (mkUser 1 "Ann" "ann@example.com") eq_refl)
      as (row' & Hl & Hi & Hr).
    exists row'. split; [exact Hl |]. split; [exact Hi |].
    apply Hr. discriminate.
  - apply (H3 (mkRequest (id_var "2") (Some ann2_other_id))
              (mkUser 1 "Ann2" "ann2@example.com")
              (mkUser 999 "Ann2" "ann2@example.com"));
      reflexivity.
Defined.

End CreateUpdate.

(** ** The connection *)

Section Connection.

Implicit Types (w : World) (r : Request).

Lemma released_failed w : fault_at 0 w <> None -> released w (connected w).
Proof.
  intros H. destruct (connected_failed w H) as (_ & _ & Eh & El).
  split; [exact Eh |]. left. auto.
Qed.

Lemma released_closed w w' mid :
  fault_at 0 w = None ->
  open_handles w' = open_handles (connected w) ->
  log w' = log (connected w) ++ mid ->
  Forall (fun e => is_stmt e = true) mid ->
  released w (closed w').
Proof.
  intros Hc Eh El Hm.
  destruct (connected_ok w Hc) as (_ & _ & Eh0 & El0 & _).
  destruct (closed_eq w') as (_ & _ & Eh1 & El1 & _).
  split; [rewrite Eh1, Eh, Eh0; reflexivity |].
  right. split; [exact Hc |]. exists mid. split; [| exact Hm].
  rewrite El1, El, El0, <- !app_assoc. reflexivity.
Qed.

Lemma released_no_stmt w : fault_at 0 w = None -> released w (closed (connected w)).
Proof.
  intros Hc. apply (released_closed w (connected w) []); auto.
  rewrite app_nil_r. reflexivity.
Qed.

Lemma released_Exec w q e w' :
  fault_at 0 w = None -> Exec db0 q (connected w) = (e, w') ->
  released w (closed w').
Proof.
  intros Hc E. pose proof (Exec_frame db0 q (connected w)) as [Fh Fl].
  rewrite E in Fh, Fl. cbn [snd] in Fh, Fl.
  apply (released_closed w w' [EvStmt q]); auto.
Qed.

(** C8. Every handler, on every request and in every world (so on each of
    its exit paths), leaves as many handles open as it found: when it has
    acquired the connection the last thing it does is to close it, with
    statements only in between, and when it has not there is nothing to
    close. *)
Theorem connection_released r w :
  Forall (fun h => released w (snd (serve h r w)))
         [getAllUsersHandler; createUserHandler; getUserHandler;
          updateUserHandler; deleteUserHandler].
Proof.
  repeat apply List.Forall_cons; [| | | | | apply List.Forall_nil].
  - rewrite getAllUsersHandler_run.
    destruct (fault_at 0 w) eqn:Hc;
      [apply released_failed; congruence |].
    pose proof (GetAllUsers_frame db0 (connected w)) as (_ & _ & Fh & Fl).
    destruct (GetAllUsers db0 (connected w)) as [res w']. cbn [snd] in *.
    apply (released_closed w w' [EvStmt SelectAll]); auto.
  - rewrite createUserHandler_run.
    destruct (fault_at 0 w) eqn:Hc;
      [apply released_failed; congruence |].
    destruct (Decode (Body r) _) as [u [e|]];
      [apply released_no_stmt, Hc |].
    destruct (Validate u); [apply released_no_stmt, Hc |].
    unfold CreateUser.
    destruct (Exec db0 _ (connected w)) as [e w'] eqn:E. cbn [snd].
    apply (released_Exec w _ e w' Hc E).
  - rewrite getUserHandler_run.
    destruct (fault_at 0 w) eqn:Hc;
      [apply released_failed; congruence |].
    destruct (parseID r) as [id|]; [| apply released_no_stmt, Hc].
    pose proof (GetUser_frame db0 id (connected w)) as (_ & _ & Fh & Fl).
    destruct (GetUser db0 id (connected w)) as [res w']. cbn [snd] in *.
    apply (released_closed w w' [EvStmt (SelectByID id)]); auto.
  - rewrite updateUserHandler_run.
    destruct (fault_at 0 w) eqn:Hc;
      [apply released_failed; congruence |].
    destruct (parseID r) as [id|]; [| apply released_no_stmt, Hc].
    destruct (Decode (Body r) _) as [u [e|]];
      [apply released_no_stmt, Hc |].
    destruct (Validate u); [apply released_no_stmt, Hc |].
    unfold UpdateUser.
    destruct (Exec db0 _ (connected w)) as [e w'] eqn:E. cbn [snd].
    apply (released_Exec w _ e w' Hc E).
  - rewrite deleteUserHandler_run.
    destruct (fault_at 0 w) eqn:Hc;
      [apply released_failed; congruence |].
    destruct (parseID r) as [id|]; [| apply released_no_stmt, Hc].
    unfold DeleteUser.
    destruct (Exec db0 _ (connected w)) as [e w'] eqn:E. cbn [snd].
    apply (released_Exec w _ e w' Hc E).
Qed.

End Connection.


(* ===================================================================== *)
(** * Part III: further properties of the handlers and the data access    *)
(* ===================================================================== *)

(** ** What a request does to the table *)

Section Effects.

Implicit Types (w : World) (r : Request) (db : DB) (q : stmt).

Lemma Forall_tail {A} (P : A -> Prop) (l : list A) :
  Forall P l -> Forall P (tail l).
Proof. destruct 1; [constructor | assumption]. Qed.

Lemma Exec_auto db q w :
  auto_increment (snd (Exec db q w))
  = match fault_at 0 w with
    | Some _ => auto_increment w
    | None => auto_increment (apply_stmt q w)
    end.
Proof.
  rewrite <- fault_at_0. unfold Exec, bind, emit, pop_fault, ret. cbn.
  destruct (hd None (faults w)); [reflexivity |]. destruct q; reflexivity.
Qed.

Lemma Exec_healthy db q w : healthy w -> healthy (snd (Exec db q w)).
Proof.
  unfold healthy, Exec, bind, emit, pop_fault, ret. cbn. intros H.
  destruct (hd None (faults w)); [apply Forall_tail, H |].
  destruct q; cbn; apply Forall_tail, H.
Qed.

Lemma GetUser_result db id w :
  fst (GetUser db id w)
  = match first_fault [fault_at 0 w; fault_at 1 w],
          filter (fun row => ID row = id) (users w) with
    | Some e, _ => Err e
    | None, [] => Err ErrNoRows
    | None, row :: _ =>
        match first_fault [fault_at 2 w; fault_at 3 w] with
        | Some e => Err e
        | None => Ok row
        end
    end.
Proof.
  unfold fault_at, GetUser, Query, bind, emit, pop_fault, ret, result_rows.
  destruct (faults w) as [|[e0|] [|[e1|] [|[e2|] [|[e3|] fs]]]];
    cbn -[filter]; try reflexivity;
    destruct (filter _ (users w)); reflexivity.
Qed.

Lemma GetUser_healthy db id w : healthy w -> healthy (snd (GetUser db id w)).
Proof.
  unfold healthy, GetUser, Query, bind, emit, pop_fault, ret, result_rows.
  cbn -[filter]. intros H.
  destruct (hd None (faults w)); [apply Forall_tail, H |]. cbn -[filter].
  destruct (hd None (tail (faults w))); [do 2 apply Forall_tail; exact H |].
  destruct (filter _ (users w)); [do 2 apply Forall_tail; exact H |].
  cbn -[filter].
  destruct (hd None (tail (tail (faults w))));
    [do 3 apply Forall_tail; exact H |]. cbn.
  destruct (hd None (tail (tail (tail (faults w)))));
    do 4 apply Forall_tail; exact H.
Qed.

Lemma closed_healthy w : healthy w -> healthy (closed w).
Proof. intros H. exact H. Qed.

Lemma auto_closed w : auto_increment (closed w) = auto_increment w.
Proof. reflexivity. Qed.

(** The table and the counter after each handler. *)
Lemma list_outcome r w :
  users (snd (serve getAllUsersHandler r w)) = users w /\
  auto_increment (snd (serve getAllUsersHandler r w)) = auto_increment w.
Proof.
  rewrite getAllUsersHandler_run.
  destruct (fault_at 0 w) eqn:Hc.
  { cbn [snd]. split; apply connected_failed; congruence. }
  destruct (connected_ok w Hc) as (Eu & Ea & _).
  pose proof (GetAllUsers_frame db0 (connected w)) as (Fu & Fa & _).
  destruct (GetAllUsers db0 (connected w)) as [res w']. cbn [snd] in *.
  rewrite users_closed, auto_closed, Fu, Fa. auto.
Qed.

Lemma get_outcome r w :
  users (snd (serve getUserHandler r w)) = users w /\
  auto_increment (snd (serve getUserHandler r w)) = auto_increment w.
Proof.
  rewrite getUserHandler_run.
  destruct (fault_at 0 w) eqn:Hc.
  { cbn [snd]. split; apply connected_failed; congruence. }
  destruct (connected_ok w Hc) as (Eu & Ea & _).
  destruct (parseID r) as [id|]; [| cbn [snd]; auto].
  pose proof (GetUser_frame db0 id (connected w)) as (Fu & Fa & _).
  destruct (GetUser db0 id (connected w)) as [res w']. cbn [snd] in *.
  rewrite users_closed, auto_closed, Fu, Fa. auto.
Qed.

Lemma create_outcome r w :
  (status (fst (serve createUserHandler r w)) = Some StatusCreated /\
   exists u,
     Decode (Body r) zero_User = (u, None) /\ Validate u = None /\
     users (snd (serve createUserHandler r w))
     = users w ++ [mkUser (auto_increment w) (Name u) (Email u)] /\
     auto_increment (snd (serve createUserHandler r w))
     = auto_increment w + 1) \/
  ((status (fst (serve createUserHandler r w)) = Some StatusBadRequest \/
    status (fst (serve createUserHandler r w))
    = Some StatusInternalServerError) /\
   users (snd (serve createUserHandler r w)) = users w /\
   auto_increment (snd (serve createUserHandler r w)) = auto_increment w).
Proof.
  rewrite createUserHandler_run. unfold zero_User.
  destruct (fault_at 0 w) eqn:Hc.
  { right. cbn [fst snd]. split; [right; reflexivity |].
    split; apply connected_failed; congruence. }
  destruct (connected_ok w Hc) as (Eu & Ea & _).
  destruct (Decode (Body r) _) as [u [e|]] eqn:Hd;
    [right; cbn [fst snd]; split; [left; reflexivity | auto] |].
  destruct (Validate u) eqn:Hv;
    [right; cbn [fst snd]; split; [left; reflexivity | auto] |].
  unfold CreateUser.
  pose proof (Exec_result db0 (Insert (Name u) (Email u)) (connected w)) as Xr.
  pose proof (Exec_users db0 (Insert (Name u) (Email u)) (connected w)) as Xu.
  pose proof (Exec_auto db0 (Insert (Name u) (Email u)) (connected w)) as Xa.
  destruct (Exec db0 _ (connected w)) as [e w']. cbn [fst snd] in *.
  rewrite users_closed, auto_closed, Xu, Xa.
  destruct (fault_at 0 (connected w)); subst e.
  - right. split; [right; reflexivity | auto].
  - left. split; [reflexivity |]. exists u. cbn. rewrite Eu, Ea. auto.
Qed.

Lemma update_outcome r w :
  (status (fst (serve updateUserHandler r w)) = Some StatusOK /\
   exists id u,
     parseID r = Ok id /\
     Decode (Body r) zero_User = (u, None) /\ Validate u = None /\
     users (snd (serve updateUserHandler r w))
     = updated id (Name u) (Email u) (users w) /\
     auto_increment (snd (serve updateUserHandler r w)) = auto_increment w) \/
  ((status (fst (serve updateUserHandler r w)) = Some StatusBadRequest \/
    status (fst (serve updateUserHandler r w))
    = Some StatusInternalServerError) /\
   users (snd (serve updateUserHandler r w)) = users w /\
   auto_increment (snd (serve updateUserHandler r w)) = auto_increment w).
Proof.
  rewrite updateUserHandler_run. unfold zero_User.
  destruct (fault_at 0 w) eqn:Hc.
  { right. cbn [fst snd]. split; [right; reflexivity |].
    split; apply connected_failed; congruence. }
  destruct (connected_ok w Hc) as (Eu & Ea & _).
  destruct (parseID r) as [id|];
    [| right; cbn [fst snd]; split; [left; reflexivity | auto]].
  destruct (Decode (Body r) _) as [u [e|]] eqn:Hd;
    [right; cbn [fst snd]; split; [left; reflexivity | auto] |].
  destruct (Validate u) eqn:Hv;
    [right; cbn [fst snd]; split; [left; reflexivity | auto] |].
  unfold UpdateUser.
  pose proof (Exec_result db0 (Update (Name u) (Email u) id) (connected w))
    as Xr.
  pose proof (Exec_users db0 (Update (Name u) (Email u) id) (connected w))
    as Xu.
  pose proof (Exec_auto db0 (Update (Name u) (Email u) id) (connected w))
    as Xa.
  destruct (Exec db0 _ (connected w)) as [e w']. cbn [fst snd] in *.
  rewrite users_closed, auto_closed, Xu, Xa.
  destruct (fault_at 0 (connected w)); subst e.
  - right. split; [right; reflexivity | auto].
  - left. split; [reflexivity |]. exists id, u. cbn. unfold updated.
    rewrite Eu, Ea. auto.
Qed.

Lemma delete_outcome r w :
  (status (fst (serve deleteUserHandler r w)) = Some StatusOK /\
   exists id,
     parseID r = Ok id /\
     users (snd (serve deleteUserHandler r w)) = deleted id (users w) /\
     auto_increment (snd (serve deleteUserHandler r w)) = auto_increment w) \/
  ((status (fst (serve deleteUserHandler r w)) = Some StatusBadRequest \/
    status (fst (serve deleteUserHandler r w))
    = Some StatusInternalServerError) /\
   users (snd (serve deleteUserHandler r w)) = users w /\
   auto_increment (snd (serve deleteUserHandler r w)) = auto_increment w).
Proof.
  rewrite deleteUserHandler_run.
  destruct (fault_at 0 w) eqn:Hc.
  { right. cbn [fst snd]. split; [right; reflexivity |].
    split; apply connected_failed; congruence. }
  destruct (connected_ok w Hc) as (Eu & Ea & _).
  destruct (parseID r) as [id|];
    [| right; cbn [fst snd]; split; [left; reflexivity | auto]].
  unfold DeleteUser.
  pose proof (Exec_result db0 (Delete id) (connected w)) as Xr.
  pose proof (Exec_users db0 (Delete id) (connected w)) as Xu.
  pose proof (Exec_auto db0 (Delete id) (connected w)) as Xa.
  destruct (Exec db0 _ (connected w)) as [e w']. cbn [fst snd] in *.
  rewrite users_closed, auto_closed, Xu, Xa.
  destruct (fault_at 0 (connected w)); subst e.
  - right. split; [right; reflexivity | auto].
  - left. split; [reflexivity |]. exists id. cbn. unfold deleted.
    rewrite Eu, Ea. auto.
Qed.

End Effects.

(** ** Invariants of the table *)

Section Invariants.

Implicit Types (w : World) (r : Request).

Lemma valid_updated id u rows :
  Validate u = None ->
  Forall (fun row => Validate row = None) rows ->
  Forall (fun row => Validate row = None) (updated id (Name u) (Email u) rows).
Proof.
  intros Hv H. unfold updated. induction H as [|row rest Hr _ IH]; cbn.
  - constructor.
  - constructor; [| exact IH].
    destruct (decide (ID row = id)); [| exact Hr].
    rewrite <- Hv. apply Validate_ext; reflexivity.
Qed.

Lemma Forall_deleted (P : User -> Prop) id rows :
  Forall P rows -> Forall P (deleted id rows).
Proof.
  intros H. apply Forall_forall. intros row Hin.
  apply list_elem_of_filter in Hin as [_ Hin].
  rewrite Forall_forall in H. apply H, Hin.
Qed.

Lemma ids_updated id name email rows :
  map ID (updated id name email rows) = map ID rows.
Proof.
  unfold updated. induction rows as [|row rest IH]; cbn; [reflexivity |].
  rewrite IH. destruct (decide (ID row = id)); reflexivity.
Qed.

Lemma NoDup_ids_deleted id rows :
  NoDup (map ID rows) -> NoDup (map ID (deleted id rows)).
Proof.
  unfold deleted. induction rows as [|row rest IH]; [auto |].
  cbn [List.map]. intros H. apply NoDup_cons in H as [Hn Hd].
  rewrite filter_cons. destruct (decide (ID row <> id)); [| auto].
  cbn [List.map]. apply NoDup_cons. split; [| auto].
  intros Hin. apply Hn.
  apply list_elem_of_fmap in Hin as (x & Hx & Hin).
  apply list_elem_of_filter in Hin as [_ Hin].
  apply list_elem_of_fmap. eauto.
Qed.

(** X1. If every stored row passes [Validate], it still does after any of
    the five handlers has served any request, whatever the store reports:
    Create and Update write a name and an email only after [Validate] has
    accepted them. *)
Theorem valid_rows_preserved r w :
  valid_rows w ->
  Forall (fun h => valid_rows (snd (serve h r w))) all_handlers.
Proof.
  unfold valid_rows. intros H.
  repeat apply List.Forall_cons; [| | | | | apply List.Forall_nil].
  - destruct (list_outcome r w) as [-> _]. exact H.
  - destruct (create_outcome r w)
      as [(_ & u & _ & Hv & -> & _) | (_ & -> & _)]; [| exact H].
    apply Forall_app. split; [exact H |]. constructor; [| constructor].
    rewrite <- Hv. apply Validate_ext; reflexivity.
  - destruct (get_outcome r w) as [-> _]. exact H.
  - destruct (update_outcome r w)
      as [(_ & id & u & _ & _ & Hv & -> & _) | (_ & -> & _)]; [| exact H].
    apply valid_updated; assumption.
  - destruct (delete_outcome r w)
      as [(_ & id & _ & -> & _) | (_ & -> & _)]; [| exact H].
    apply Forall_deleted, H.
Qed.

Lemma valid_rows_preserved_witness :
  Forall (fun h =>
            valid_rows (snd (serve h (mkRequest (id_var "2") (Some carol))
                                   two_users)))
         all_handlers.
Proof.
  apply valid_rows_preserved. repeat constructor.
Defined.

(** X10. In the store model (ids assigned from the AUTO_INCREMENT counter):
    if the ids of the rows are pairwise distinct and below the counter,
    they still are after any handler has served any request. *)
Theorem unique_ids_preserved r w :
  unique_ids w ->
  Forall (fun h => unique_ids (snd (serve h r w))) all_handlers.
Proof.
  unfold unique_ids. intros [Hd Hb].
  repeat apply List.Forall_cons; [| | | | | apply List.Forall_nil].
  - destruct (list_outcome r w) as [-> ->]. auto.
  - destruct (create_outcome r w)
      as [(_ & u & _ & _ & -> & ->) | (_ & -> & ->)]; [| auto].
    split.
    + rewrite map_app. cbn. apply NoDup_app. split; [exact Hd |].
      split; [| apply NoDup_singleton].
      intros x Hx Hx'. apply list_elem_of_singleton in Hx'. subst x.
      apply list_elem_of_fmap in Hx as (row & Hrow & Hin).
      rewrite Forall_forall in Hb. specialize (Hb row Hin). lia.
    + apply Forall_app. split.
      * eapply Forall_impl; [exact Hb |]. cbn. intros; lia.
      * repeat constructor. cbn. lia.
  - destruct (get_outcome r w) as [-> ->]. auto.
  - destruct (update_outcome r w)
      as [(_ & id & u & _ & _ & _ & -> & ->) | (_ & -> & ->)]; [| auto].
    split; [rewrite ids_updated; exact Hd |].
    unfold updated. apply Forall_forall. intros row Hin.
    apply list_elem_of_fmap in Hin as (row0 & -> & Hin).
    rewrite Forall_forall in Hb. specialize (Hb row0 Hin).
    destruct (decide (ID row0 = id)); exact Hb.
  - destruct (delete_outcome r w)
      as [(_ & id & _ & -> & ->) | (_ & -> & ->)]; [| auto].
    split; [apply NoDup_ids_deleted, Hd | apply Forall_deleted, Hb].
Qed.

Lemma unique_ids_preserved_witness :
  Forall (fun h =>
            unique_ids (snd (serve h (mkRequest (id_var "2") (Some carol))
                                   two_users)))
         all_handlers.
Proof.
  apply unique_ids_preserved. split.
  - cbn. repeat constructor; rewrite ?list_elem_of_In; cbn; intuition lia.
  - repeat constructor.
Defined.

(** X2. The two reading handlers never change the store: after List and
    after Get the table and the AUTO_INCREMENT counter are what they were,
    for every request and whatever the store reports. *)
Theorem reads_leave_store r w :
  Forall (fun h =>
            users (snd (serve h r w)) = users w /\
            auto_increment (snd (serve h r w)) = auto_increment w)
         [getAllUsersHandler; getUserHandler].
Proof.
  repeat apply List.Forall_cons; [| | apply List.Forall_nil].
  - apply list_outcome.
  - apply get_outcome.
Qed.

(** X3. A request that is not answered 200 or 201 has changed nothing:
    after every handler run with another status the table and the counter
    are what they were. *)
Theorem failure_leaves_table r w :
  Forall (fun h =>
            status (fst (serve h r w)) <> Some StatusOK ->
            status (fst (serve h r w)) <> Some StatusCreated ->
            users (snd (serve h r w)) = users w /\
            auto_increment (snd (serve h r w)) = auto_increment w)
         all_handlers.
Proof.
  repeat apply List.Forall_cons; [| | | | | apply List.Forall_nil];
    intros H1 H2.
  - apply list_outcome.
  - destruct (create_outcome r w) as [(Hs & _) | (_ & H)];
      [congruence | exact H].
  - apply get_outcome.
  - destruct (update_outcome r w) as [(Hs & _) | (_ & H)];
      [congruence | exact H].
  - destruct (delete_outcome r w) as [(Hs & _) | (_ & H)];
      [congruence | exact H].
Qed.

Lemma failure_leaves_table_witness :
  users (snd (serve deleteUserHandler (mkRequest (id_var "2") None)
                    (store_down two_users)))
  = users two_users.
Proof.
  pose proof (failure_leaves_table (mkRequest (id_var "2") None)
                (store_down two_users)) as H.
  unfold all_handlers in H.
  rewrite !List.Forall_cons_iff in H.
  destruct H as (_ & _ & _ & _ & H & _).
  apply H; discriminate.
Defined.

(** X5. A Create request answered 201 has appended exactly one row: the
    rows that were there are unchanged and in place, and the new one has
    the name and the email of the decoded body, which [Validate] accepts;
    its id is the one the store assigns, not the id field of the body. *)
Theorem Create_appends r w :
  status (fst (serve createUserHandler r w)) = Some StatusCreated ->
  exists u,
    Decode (Body r) zero_User = (u, None) /\ Validate u = None /\
    users (snd (serve createUserHandler r w))
    = users w ++ [mkUser (auto_increment w) (Name u) (Email u)].
Proof.
  intros Hs.
  destruct (create_outcome r w)
    as [(_ & u & Hd & Hv & Hu & _) | ([Hs'|Hs'] & _)];
    [eauto | rewrite Hs in Hs'; discriminate ..].
Qed.

Lemma Create_appends_witness :
  exists u,
    Decode (Some carol) zero_User = (u, None) /\ Validate u = None /\
    users (snd (serve createUserHandler (mkRequest no_vars (Some carol))
                      two_users))
    = users two_users ++ [mkUser 3 (Name u) (Email u)].
Proof.
  apply (Create_appends (mkRequest no_vars (Some carol)) two_users).
  reflexivity.
Defined.

(** X17. A Delete request answered 200 has removed exactly the rows that
    have the id of the path: no row with that id is left, and every other
    row is still there, in the order they were in. *)
Theorem Delete_removes r w :
  status (fst (serve deleteUserHandler r w)) = Some StatusOK ->
  exists id,
    parseID r = Ok id /\
    users (snd (serve deleteUserHandler r w)) = deleted id (users w) /\
    Forall (fun row => ID row <> id) (users (snd (serve deleteUserHandler r w))) /\
    (forall row, In row (users w) -> ID row <> id ->
                 In row (users (snd (serve deleteUserHandler r w)))).
Proof.
  intros Hs.
  destruct (delete_outcome r w)
    as [(_ & id & Hp & Hu & _) | ([Hs'|Hs'] & _)];
    [| rewrite Hs in Hs'; discriminate ..].
  exists id. rewrite Hu. split; [exact Hp |]. split; [reflexivity |].
  split.
  - apply Forall_forall. intros row Hin.
    apply list_elem_of_filter in Hin as [Hne _]. exact Hne.
  - intros row Hin Hne. apply list_elem_of_In, list_elem_of_filter.
    split; [exact Hne | apply list_elem_of_In, Hin].
Qed.

Lemma Delete_removes_witness :
  exists id,
    parseID (mkRequest (id_var "1") None) = Ok id /\
    users (snd (serve deleteUserHandler (mkRequest (id_var "1") None)
                      two_users))
    = deleted id (users two_users) /\
    Forall (fun row => ID row <> id)
           (users (snd (serve deleteUserHandler (mkRequest (id_var "1") None)
                              two_users))) /\
    (forall row, In row (users two_users) -> ID row <> id ->
       In row (users (snd (serve deleteUserHandler
                                 (mkRequest (id_var "1") None) two_users)))).
Proof.
  apply (Delete_removes (mkRequest (id_var "1") None) two_users).
  reflexivity.
Defined.

End Invariants.

(** ** Requests in sequence, on a store that reports no failure *)

Section Sequences.

Implicit Types (w : World) (r : Request) (u : User).

Lemma handler_healthy r w :
  healthy w -> Forall (fun h => healthy (snd (serve h r w))) all_handlers.
Proof.
  intros H. pose proof (healthy_fault_at 0 w H) as Hc.
  pose proof (healthy_connected w H) as H1.
  repeat apply List.Forall_cons; [| | | | | apply List.Forall_nil].
  - rewrite getAllUsersHandler_run, Hc.
    pose proof (GetAllUsers_healthy db0 (connected w) H1) as [_ H2].
    destruct (GetAllUsers db0 (connected w)) as [res w']. exact H2.
  - rewrite createUserHandler_run, Hc.
    destruct (Decode (Body r) _) as [u [e|]]; [exact H1 |].
    destruct (Validate u); [exact H1 |].
    pose proof (Exec_healthy db0 (Insert (Name u) (Email u)) (connected w) H1)
      as H2.
    unfold CreateUser. destruct (Exec db0 _ (connected w)) as [e w'].
    exact H2.
  - rewrite getUserHandler_run, Hc.
    destruct (parseID r) as [id|]; [| exact H1].
    pose proof (GetUser_healthy db0 id (connected w) H1) as H2.
    destruct (GetUser db0 id (connected w)) as [res w']. exact H2.
  - rewrite updateUserHandler_run, Hc.
    destruct (parseID r) as [id|]; [| exact H1].
    destruct (Decode (Body r) _) as [u [e|]]; [exact H1 |].
    destruct (Validate u); [exact H1 |].
    pose proof (Exec_healthy db0 (Update (Name u) (Email u) id)
                  (connected w) H1) as H2.
    unfold UpdateUser. destruct (Exec db0 _ (connected w)) as [e w'].
    exact H2.
  - rewrite deleteUserHandler_run, Hc.
    destruct (parseID r) as [id|]; [| exact H1].
    pose proof (Exec_healthy db0 (Delete id) (connected w) H1) as H2.
    unfold DeleteUser. destruct (Exec db0 _ (connected w)) as [e w'].
    exact H2.
Qed.

Lemma Exec_on_healthy q w :
  healthy w -> fst (Exec db0 q (connected w)) = None.
Proof.
  intros H. rewrite Exec_result.
  apply healthy_fault_at, healthy_connected, H.
Qed.

Lemma create_healthy r w u :
  healthy w -> Decode (Body r) zero_User = (u, None) -> Validate u = None ->
  status (fst (serve createUserHandler r w)) = Some StatusCreated /\
  users (snd (serve createUserHandler r w))
  = users w ++ [mkUser (auto_increment w) (Name u) (Email u)] /\
  healthy (snd (serve createUserHandler r w)).
Proof.
  intros H Hd Hv.
  assert (Hs : status (fst (serve createUserHandler r w)) = Some StatusCreated).
  { rewrite createUserHandler_run, (healthy_fault_at 0 w H).
    unfold zero_User in Hd. rewrite Hd, Hv. unfold CreateUser.
    pose proof (Exec_on_healthy (Insert (Name u) (Email u)) w H) as E.
    destruct (Exec db0 _ (connected w)) as [e w']. cbn [fst] in E.
    subst e. reflexivity. }
  split; [exact Hs |]. split.
  - destruct (create_outcome r w)
      as [(_ & u' & Hd' & _ & Hu & _) | ([Hs'|Hs'] & _)];
      [| rewrite Hs in Hs'; discriminate ..].
    rewrite Hd in Hd'. injection Hd' as <-. exact Hu.
  - pose proof (handler_healthy r w H) as Hh. unfold all_handlers in Hh.
    rewrite !List.Forall_cons_iff in Hh. apply Hh.
Qed.

Lemma update_healthy r w id u :
  healthy w -> parseID r = Ok id ->
  Decode (Body r) zero_User = (u, None) -> Validate u = None ->
  status (fst (serve updateUserHandler r w)) = Some StatusOK /\
  users (snd (serve updateUserHandler r w))
  = updated id (Name u) (Email u) (users w) /\
  healthy (snd (serve updateUserHandler r w)).
Proof.
  intros H Hp Hd Hv.
  assert (Hs : status (fst (serve updateUserHandler r w)) = Some StatusOK).
  { rewrite updateUserHandler_run, (healthy_fault_at 0 w H), Hp.
    unfold zero_User in Hd. rewrite Hd, Hv. unfold UpdateUser.
    pose proof (Exec_on_healthy (Update (Name u) (Email u) id) w H) as E.
    destruct (Exec db0 _ (connected w)) as [e w']. cbn [fst] in E.
    subst e. reflexivity. }
  split; [exact Hs |]. split.
  - destruct (update_outcome r w)
      as [(_ & id' & u' & Hp' & Hd' & _ & Hu & _) | ([Hs'|Hs'] & _)];
      [| rewrite Hs in Hs'; discriminate ..].
    rewrite Hd in Hd'. injection Hd' as <-.
    rewrite Hp in Hp'. injection Hp' as <-. exact Hu.
  - pose proof (handler_healthy r w H) as Hh. unfold all_handlers in Hh.
    rewrite !List.Forall_cons_iff in Hh. apply Hh.
Qed.

Lemma delete_healthy r w id :
  healthy w -> parseID r = Ok id ->
  status (fst (serve deleteUserHandler r w)) = Some StatusOK /\
  users (snd (serve deleteUserHandler r w)) = deleted id (users w) /\
  healthy (snd (serve deleteUserHandler r w)).
Proof.
  intros H Hp.
  assert (Hs : status (fst (serve deleteUserHandler r w)) = Some StatusOK).
  { rewrite deleteUserHandler_run, (healthy_fault_at 0 w H), Hp.
    unfold DeleteUser.
    pose proof (Exec_on_healthy (Delete id) w H) as E.
    destruct (Exec db0 _ (connected w)) as [e w']. cbn [fst] in E.
    subst e. reflexivity. }
  split; [exact Hs |]. split.
  - destruct (delete_outcome r w)
      as [(_ & id' & Hp' & Hu & _) | ([Hs'|Hs'] & _)];
      [| rewrite Hs in Hs'; discriminate ..].
    rewrite Hp in Hp'. injection Hp' as <-. exact Hu.
  - pose proof (handler_healthy r w H) as Hh. unfold all_handlers in Hh.
    rewrite !List.Forall_cons_iff in Hh. apply Hh.
Qed.

(** What Get answers on a store that reports no failure: the first row
    that has the id, or 404. *)
Lemma get_healthy r w id :
  healthy w -> parseID r = Ok id ->
  fst (serve getUserHandler r w)
  = match filter (fun row => ID row = id) (users w) with
    | [] => error_response "User not found" StatusNotFound
    | row :: _ => json_response (json_of_User row)
    end.
Proof.
  intros H Hp. pose proof (healthy_connected w H) as H1.
  rewrite getUserHandler_run, (healthy_fault_at 0 w H), Hp.
  pose proof (GetUser_result db0 id (connected w)) as E.
  rewrite !(healthy_fault_at _ _ H1) in E. cbn [first_fault] in E.
  destruct (connected_ok w (healthy_fault_at 0 w H)) as (Eu & _).
  rewrite Eu in E.
  destruct (GetUser db0 id (connected w)) as [res w']. cbn [fst] in *.
  subst res. destruct (filter _ (users w)); reflexivity.
Qed.

Lemma filter_updated_hit id name email rows :
  (exists row, In row rows /\ ID row = id) ->
  exists rest,
    filter (fun row => ID row = id) (updated id name email rows)
    = mkUser id name email :: rest.
Proof.
  unfold updated. induction rows as [|row rows IH]; intros (x & Hin & Hx).
  - destruct Hin.
  - cbn [List.map]. rewrite filter_cons.
    destruct (decide (ID row = id)) as [E|N].
    + cbn [ID]. destruct (decide (ID row = id)); [| contradiction].
      rewrite E. eauto.
    + destruct (decide (ID row = id)); [contradiction |].
      apply IH. destruct Hin as [-> | Hin]; [contradiction | eauto].
Qed.

Lemma deleted_none id rows : Forall (fun row => ID row <> id) (deleted id rows).
Proof.
  apply Forall_forall. intros row Hin.
  apply list_elem_of_filter in Hin as [Hne _]. exact Hne.
Qed.

(** X6. On a store that reports no failure, a Create request with a valid
    body followed by a List request: List answers 200 with the JSON array
    of the rows that were there, in order, followed by one more entry that
    has the new name and email. *)
Theorem Create_then_List r r' w u :
  healthy w -> Decode (Body r) zero_User = (u, None) -> Validate u = None ->
  let w1 := snd (serve createUserHandler r w) in
  status (fst (serve getAllUsersHandler r' w1)) = Some StatusOK /\
  body (fst (serve getAllUsersHandler r' w1))
  = [JSON (JArray (map json_of_User (users w) ++
                   [json_of_User (mkUser (auto_increment w)
                                         (Name u) (Email u))]))].
Proof.
  intros H Hd Hv w1.
  destruct (create_healthy r w u H Hd Hv) as (_ & Hu & H1).
  destruct (List_response r' w1 H1) as (Hs & _ & Hb).
  split; [exact Hs |]. rewrite Hb. subst w1. rewrite Hu.
  destruct (users w) as [|row rows]; [reflexivity |].
  cbn [app List.map]. rewrite map_app. reflexivity.
Qed.

Lemma Create_then_List_witness :
  body (fst (serve getAllUsersHandler (mkRequest no_vars None)
               (snd (serve createUserHandler (mkRequest no_vars (Some carol))
                           empty_store))))
  = [JSON (JArray [json_of_User (mkUser 1 "Carol" "carol@example.net")])].
Proof.
  apply (Create_then_List (mkRequest no_vars (Some carol))
           (mkRequest no_vars None) empty_store
           (mkUser 42 "Carol" "carol@example.net"));
    [constructor | reflexivity | reflexivity].
Defined.

(** X7. On a store that reports no failure, Delete then Get on the same id
    yields 404 with the text [User not found], whatever the table held. *)
Theorem Delete_then_Get r r' w id :
  healthy w -> parseID r = Ok id -> parseID r' = Ok id ->
  let w1 := snd (serve deleteUserHandler r w) in
  status (fst (serve getUserHandler r' w1)) = Some StatusNotFound /\
  body (fst (serve getUserHandler r' w1))
  = [Text ("User not found" +:+ newline)].
Proof.
  intros H Hp Hp' w1.
  destruct (delete_healthy r w id H Hp) as (_ & Hu & H1).
  rewrite (get_healthy r' w1 id H1 Hp'). subst w1. rewrite Hu.
  rewrite (filter_none id _ (deleted_none id (users w))).
  split; reflexivity.
Qed.

Lemma Delete_then_Get_witness :
  status (fst (serve getUserHandler (mkRequest (id_var "2") None)
                 (snd (serve deleteUserHandler (mkRequest (id_var "2") None)
                             two_users))))
  = Some StatusNotFound.
Proof.
  apply (Delete_then_Get (mkRequest (id_var "2") None)
           (mkRequest (id_var "2") None) two_users 2);
    [constructor | reflexivity | reflexivity].
Defined.

(** X8. On a store that reports no failure, an Update with a valid body on
    an id that some row has, followed by a Get on that id: Get answers 200
    with the id of the path and the name and email of the body. When no
    row has the id, the Get answers 404. *)
Theorem Update_then_Get r r' w id u :
  healthy w -> parseID r = Ok id -> parseID r' = Ok id ->
  Decode (Body r) zero_User = (u, None) -> Validate u = None ->
  let w1 := snd (serve updateUserHandler r w) in
  ((exists row, In row (users w) /\ ID row = id) ->
   status (fst (serve getUserHandler r' w1)) = Some StatusOK /\
   body (fst (serve getUserHandler r' w1))
   = [JSON (json_of_User (mkUser id (Name u) (Email u)))]) /\
  (Forall (fun row => ID row <> id) (users w) ->
   status (fst (serve getUserHandler r' w1)) = Some StatusNotFound).
Proof.
  intros H Hp Hp' Hd Hv w1.
  destruct (update_healthy r w id u H Hp Hd Hv) as (_ & Hu & H1).
  rewrite (get_healthy r' w1 id H1 Hp'). subst w1. rewrite Hu.
  split.
  - intros Hex.
    destruct (filter_updated_hit id (Name u) (Email u) (users w) Hex)
      as [rest ->].
    split; reflexivity.
  - intros Hm. unfold updated. rewrite (update_none id _ _ _ Hm).
    rewrite (filter_none id _ Hm). reflexivity.
Qed.

Lemma Update_then_Get_witness :
  body (fst (serve getUserHandler (mkRequest (id_var "2") None)
               (snd (serve updateUserHandler
                           (mkRequest (id_var "2") (Some carol)) two_users))))
  = [JSON (json_of_User (mkUser 2 "Carol" "carol@example.net"))].
Proof.
  destruct (Update_then_Get (mkRequest (id_var "2") (Some carol))
              (mkRequest (id_var "2") None) two_users 2
              (mkUser 42 "Carol" "carol@example.net"))
    as [H _]; [constructor | reflexivity ..|].
  apply H. exists (mkUser 2 "Bob" "bob@example.org").
  split; [right; left; reflexivity | reflexivity].
Defined.

(** X9. In the store model, when the ids of the rows are below the
    AUTO_INCREMENT counter: a Create with a valid body followed by a Get
    on the id the store has assigned answers 200 with that id and the name
    and email of the body. *)
Theorem Create_then_Get r r' w u :
  healthy w -> unique_ids w ->
  Decode (Body r) zero_User = (u, None) -> Validate u = None ->
  parseID r' = Ok (auto_increment w) ->
  let w1 := snd (serve createUserHandler r w) in
  status (fst (serve getUserHandler r' w1)) = Some StatusOK /\
  body (fst (serve getUserHandler r' w1))
  = [JSON (json_of_User (mkUser (auto_increment w) (Name u) (Email u)))].
Proof.
  intros H [_ Hb] Hd Hv Hp' w1.
  destruct (create_healthy r w u H Hd Hv) as (_ & Hu & H1).
  rewrite (get_healthy r' w1 _ H1 Hp'). subst w1. rewrite Hu.
  rewrite filter_app, filter_none.
  - rewrite filter_cons. cbn [ID].
    destruct (decide (auto_increment w = auto_increment w)); [| congruence].
    split; reflexivity.
  - eapply Forall_impl; [exact Hb |]. cbn. intros; lia.
Qed.

Lemma Create_then_Get_witness :
  body (fst (serve getUserHandler (mkRequest (id_var "3") None)
               (snd (serve createUserHandler (mkRequest no_vars (Some carol))
                           two_users))))
  = [JSON (json_of_User (mkUser 3 "Carol" "carol@example.net"))].
Proof.
  apply (Create_then_Get (mkRequest no_vars (Some carol))
           (mkRequest (id_var "3") None) two_users
           (mkUser 42 "Carol" "carol@example.net"));
    [constructor | | reflexivity ..].
  split.
  - cbn. repeat constructor; rewrite ?list_elem_of_In; cbn; intuition lia.
  - repeat constructor.
Defined.

Lemma deleted_twice id rows : deleted id (deleted id rows) = deleted id rows.
Proof.
  unfold deleted at 1. apply filter_all, deleted_none.
Qed.

Lemma updated_twice id name email rows :
  updated id name email (updated id name email rows)
  = updated id name email rows.
Proof.
  unfold updated. rewrite map_map. apply map_ext. intros row.
  destruct (decide (ID row = id)) as [E|N]; cbn [ID].
  - destruct (decide (ID row = id)); [reflexivity | contradiction].
  - destruct (decide (ID row = id)); [contradiction | reflexivity].
Qed.

(** X18. On a store that reports no failure, repeating a Delete request,
    or an Update request with a valid body, is answered 200 again and
    leaves the table as the first one left it. *)
Theorem repeated_write_is_idempotent r w id :
  healthy w -> parseID r = Ok id ->
  (let w1 := snd (serve deleteUserHandler r w) in
   status (fst (serve deleteUserHandler r w1)) = Some StatusOK /\
   users (snd (serve deleteUserHandler r w1)) = users w1) /\
  (forall u, Decode (Body r) zero_User = (u, None) -> Validate u = None ->
   let w1 := snd (serve updateUserHandler r w) in
   status (fst (serve updateUserHandler r w1)) = Some StatusOK /\
   users (snd (serve updateUserHandler r w1)) = users w1).
Proof.
  intros H Hp. split.
  - intros w1.
    destruct (delete_healthy r w id H Hp) as (_ & Hu & H1).
    destruct (delete_healthy r w1 id H1 Hp) as (Hs & Hu1 & _).
    split; [exact Hs |]. rewrite Hu1. subst w1. rewrite Hu.
    apply deleted_twice.
  - intros u Hd Hv w1.
    destruct (update_healthy r w id u H Hp Hd Hv) as (_ & Hu & H1).
    destruct (update_healthy r w1 id u H1 Hp Hd Hv) as (Hs & Hu1 & _).
    split; [exact Hs |]. rewrite Hu1. subst w1. rewrite Hu.
    apply updated_twice.
Qed.

Lemma repeated_write_is_idempotent_witness :
  users (snd (serve deleteUserHandler (mkRequest (id_var "1") None)
                (snd (serve deleteUserHandler (mkRequest (id_var "1") None)
                            two_users))))
  = users (snd (serve deleteUserHandler (mkRequest (id_var "1") None)
                      two_users)).
Proof.
  destruct (repeated_write_is_idempotent (mkRequest (id_var "1") None)
              two_users 1) as [H _]; [constructor | reflexivity |].
  apply H.
Defined.

End Sequences.

(** ** Listing, whatever the store reports *)

Section ListingFaults.

Implicit Types (w : World) (r : Request) (db : DB).

Lemma scan_rows_result rows : forall acc w,
  fst (scan_rows rows acc w)
  = match first_fault (take (2 * length rows + 1) (faults w)) with
    | Some e => Err e
    | None => Ok (fold_left append rows acc)
    end.
Proof.
  induction rows as [|row rest IH]; intros acc w.
  - unfold scan_rows, bind, pop_fault, ret. cbn.
    destruct (faults w) as [|[e|] fs]; reflexivity.
  - cbn [length]. replace (2 * S (length rest) + 1)%nat
      with (S (S (2 * length rest + 1))) by lia.
    cbn [scan_rows fold_left]. unfold bind, pop_fault, ret.
    destruct (faults w) as [|[e0|] [|[e1|] fs]];
      cbn -[scan_rows Nat.mul Nat.add]; try reflexivity;
      rewrite IH; cbn -[Nat.mul Nat.add]; rewrite ?take_nil; reflexivity.
Qed.

Lemma GetAllUsers_result db w :
  fst (GetAllUsers db w)
  = match first_fault (take (2 * length (users w) + 2) (faults w)) with
    | Some e => Err e
    | None => Ok (match users w with
                  | [] => nil_slice
                  | _ => Slice (users w)
                  end)
    end.
Proof.
  replace (2 * length (users w) + 2)%nat
    with (S (2 * length (users w) + 1)) by lia.
  unfold GetAllUsers, Query, bind, emit, pop_fault, ret, result_rows.
  rewrite <- fold_append_nil.
  destruct (faults w) as [|[e0|] fs];
    cbn -[scan_rows fold_left Nat.mul Nat.add]; try reflexivity;
    rewrite scan_rows_result; cbn -[fold_left Nat.mul Nat.add];
    rewrite ?take_nil; reflexivity.
Qed.

Lemma elems_of_listing (rows : list User) :
  elems_of (match rows with [] => nil_slice | _ => Slice rows end) = rows.
Proof. destruct rows; reflexivity. Qed.

(** X4. [GetAllUsers] on a table of [n] rows makes [2n + 2] calls that can
    fail (the query, a fetch and a scan per row, the fetch that ends the
    rows). It returns the first failure among them if there is one, and
    otherwise all the rows in storage order: never a part of them. The
    List handler answers 404 with the text [User not found] for any such
    failure, and 200 only with the encoding of all the rows. *)
Theorem List_all_or_nothing r w :
  (forall db,
     fst (GetAllUsers db w)
     = match first_fault (take (2 * length (users w) + 2) (faults w)) with
       | Some e => Err e
       | None => Ok (match users w with
                     | [] => nil_slice
                     | _ => Slice (users w)
                     end)
       end) /\
  (forall db us, fst (GetAllUsers db w) = Ok us -> elems_of us = users w) /\
  (fault_at 0 w = None ->
   forall e, fst (GetAllUsers db0 (connected w)) = Err e ->
     status (fst (serve getAllUsersHandler r w)) = Some StatusNotFound /\
     body (fst (serve getAllUsersHandler r w))
     = [Text ("User not found" +:+ newline)]) /\
  (status (fst (serve getAllUsersHandler r w)) = Some StatusOK ->
   body (fst (serve getAllUsersHandler r w))
   = [JSON (match users w with
            | [] => JNull
            | us => JArray (map json_of_User us)
            end)]).
Proof.
  split; [intros db; apply GetAllUsers_result |].
  split.
  { intros db us. rewrite GetAllUsers_result.
    destruct (first_fault _); [discriminate |].
    intros [= <-]. apply elems_of_listing. }
  split.
  - intros Hc e He. rewrite getAllUsersHandler_run, Hc.
    destruct (GetAllUsers db0 (connected w)) as [res w']. cbn [fst] in He.
    subst res. split; reflexivity.
  - rewrite getAllUsersHandler_run.
    destruct (fault_at 0 w) eqn:Hc; [discriminate |].
    pose proof (GetAllUsers_result db0 (connected w)) as E.
    destruct (connected_ok w Hc) as (Eu & _). rewrite Eu in E.
    destruct (GetAllUsers db0 (connected w)) as [[us|e] w'];
      [| discriminate].
    cbn [fst] in *. intros _.
    destruct (first_fault _); [discriminate |]. injection E as ->.
    destruct (users w); reflexivity.
Qed.

Lemma List_all_or_nothing_witness :
  status (fst (serve getAllUsersHandler (mkRequest no_vars None)
                     (scan_fails two_users)))
  = Some StatusNotFound /\
  body (fst (serve getAllUsersHandler (mkRequest no_vars None) two_users))
  = [JSON (JArray (map json_of_User (users two_users)))].
Proof.
  split.
  - destruct (List_all_or_nothing (mkRequest no_vars None)
                (scan_fails two_users)) as (_ & _ & H & _).
    apply (H eq_refl (StoreError "bad row")). reflexivity.
  - destruct (List_all_or_nothing (mkRequest no_vars None) two_users)
      as (_ & _ & _ & H).
    apply H. reflexivity.
Defined.

End ListingFaults.

(** ** Responses *)

Section Responses.

Implicit Types (w : World) (r : Request).

Lemma Validate_messages u e :
  Validate u = Some e ->
  e = errorString "name is required" \/
  e = errorString "email is required" \/
  e = errorString "invalid email format".
Proof.
  unfold Validate.
  destruct (decide (Name u = "")); [intros [= <-]; auto |].
  destruct (decide (Email u = "")); [intros [= <-]; auto |].
  destruct (negb (isValidEmail (Email u))); [intros [= <-]; auto |].
  discriminate.
Qed.

(** X11. Every handler run writes exactly one response body and a status
    out of a fixed set: List 200, 404 or 500; Create 201, 400 or 500; Get
    200, 400, 404 or 500; Update and Delete 200, 400 or 500. List never
    answers 400, and no writing handler answers 404. *)
Theorem status_codes r w :
  (status_in [200; 404; 500] (fst (serve getAllUsersHandler r w)) /\
   status_in [201; 400; 500] (fst (serve createUserHandler r w)) /\
   status_in [200; 400; 404; 500] (fst (serve getUserHandler r w)) /\
   status_in [200; 400; 500] (fst (serve updateUserHandler r w)) /\
   status_in [200; 400; 500] (fst (serve deleteUserHandler r w))) /\
  Forall (fun h => length (body (fst (serve h r w))) = 1%nat) all_handlers.
Proof.
  unfold status_in. split; [repeat split |].
  - rewrite getAllUsersHandler_run.
    destruct (fault_at 0 w); [eexists; split; [reflexivity | cbn; auto] |].
    destruct (GetAllUsers db0 (connected w)) as [[us|e] w'];
      eexists; (split; [reflexivity | cbn; auto]).
  - destruct (create_outcome r w) as [(Hs & _) | ([Hs|Hs] & _)];
      rewrite Hs; eexists; (split; [reflexivity | cbn; auto]).
  - rewrite getUserHandler_run.
    destruct (fault_at 0 w); [eexists; split; [reflexivity | cbn; auto] |].
    destruct (parseID r) as [id|];
      [| eexists; split; [reflexivity | cbn; auto]].
    destruct (GetUser db0 id (connected w)) as [[u|e] w'];
      eexists; (split; [reflexivity | cbn; auto]).
  - destruct (update_outcome r w) as [(Hs & _) | ([Hs|Hs] & _)];
      rewrite Hs; eexists; (split; [reflexivity | cbn; auto]).
  - destruct (delete_outcome r w) as [(Hs & _) | ([Hs|Hs] & _)];
      rewrite Hs; eexists; (split; [reflexivity | cbn; auto]).
  - repeat apply List.Forall_cons; [| | | | | apply List.Forall_nil].
    + rewrite getAllUsersHandler_run.
      destruct (fault_at 0 w); [reflexivity |].
      destruct (GetAllUsers db0 (connected w)) as [[us|e] w']; reflexivity.
    + rewrite createUserHandler_run.
      destruct (fault_at 0 w); [reflexivity |].
      destruct (Decode (Body r) _) as [u [e|]]; [reflexivity |].
      destruct (Validate u); [reflexivity |].
      destruct (CreateUser db0 _ _ (connected w)) as [[e|] w']; reflexivity.
    + rewrite getUserHandler_run.
      destruct (fault_at 0 w); [reflexivity |].
      destruct (parseID r) as [id|]; [| reflexivity].
      destruct (GetUser db0 id (connected w)) as [[u|e] w']; reflexivity.
    + rewrite updateUserHandler_run.
      destruct (fault_at 0 w); [reflexivity |].
      destruct (parseID r) as [id|]; [| reflexivity].
      destruct (Decode (Body r) _) as [u [e|]]; [reflexivity |].
      destruct (Validate u); [reflexivity |].
      destruct (UpdateUser db0 _ _ _ (connected w)) as [[e|] w'];
        reflexivity.
    + rewrite deleteUserHandler_run.
      destruct (fault_at 0 w); [reflexivity |].
      destruct (parseID r) as [id|]; [| reflexivity].
      destruct (DeleteUser db0 _ (connected w)) as [[e|] w']; reflexivity.
Qed.

(** X12. With the connection acquired, a Create request whose body does
    not decode is answered 400 with the text [Invalid input], and one
    whose decoded user fails [Validate] is answered 400 with the message
    of [Validate], which is one of its three messages; likewise for an
    Update request whose path id parses. In all these cases no statement
    is sent: the log shows the open and the close only. *)
Theorem invalid_body_is_400 r w :
  fault_at 0 w = None ->
  let bad_input h :=
    forall u e, Decode (Body r) zero_User = (u, Some e) ->
      status (fst (serve h r w)) = Some StatusBadRequest /\
      body (fst (serve h r w)) = [Text ("Invalid input" +:+ newline)] /\
      log (snd (serve h r w)) = log w ++ [EvOpen; EvClose] in
  let invalid h :=
    forall u e, Decode (Body r) zero_User = (u, None) -> Validate u = Some e ->
      status (fst (serve h r w)) = Some StatusBadRequest /\
      body (fst (serve h r w)) = [Text (Error_ e +:+ newline)] /\
      In (Error_ e) ["name is required"; "email is required";
                     "invalid email format"] /\
      log (snd (serve h r w)) = log w ++ [EvOpen; EvClose] in
  bad_input createUserHandler /\ invalid createUserHandler /\
  (forall id, parseID r = Ok id ->
     bad_input updateUserHandler /\ invalid updateUserHandler).
Proof.
  intros Hc. cbv zeta. unfold zero_User.
  assert (Hl : log (closed (connected w)) = log w ++ [EvOpen; EvClose]).
  { rewrite log_closed. destruct (connected_ok w Hc) as (_ & _ & _ & -> & _).
    rewrite <- app_assoc. reflexivity. }
  assert (Hm : forall u e, Validate u = Some e ->
            In (Error_ e) ["name is required"; "email is required";
                           "invalid email format"]).
  { intros u e Hv.
    destruct (Validate_messages u e Hv) as [-> | [-> | ->]]; cbn; auto. }
  split; [| split].
  - intros u e Hd. rewrite createUserHandler_run, Hc, Hd. cbn [fst snd].
    auto.
  - intros u e Hd Hv. rewrite createUserHandler_run, Hc, Hd, Hv.
    cbn [fst snd]. repeat split; eauto.
  - intros id Hp. split.
    + intros u e Hd. rewrite updateUserHandler_run, Hc, Hp, Hd.
      cbn [fst snd]. auto.
    + intros u e Hd Hv. rewrite updateUserHandler_run, Hc, Hp, Hd, Hv.
      cbn [fst snd]. repeat split; eauto.
Qed.

Lemma invalid_body_is_400_witness :
  status (fst (serve createUserHandler (mkRequest no_vars None) two_users))
  = Some StatusBadRequest /\
  body (fst (serve createUserHandler (mkRequest no_vars (Some no_name))
                   two_users))
  = [Text ("name is required" +:+ newline)] /\
  log (snd (serve updateUserHandler (mkRequest (id_var "2") (Some no_name))
                  two_users))
  = [EvOpen; EvClose].
Proof.
  split.
  { destruct (invalid_body_is_400 (mkRequest no_vars None) two_users eq_refl)
      as (H & _).
    apply (H zero_User (UnmarshalError "invalid character or unexpected EOF")).
    reflexivity. }
  split.
  { destruct (invalid_body_is_400 (mkRequest no_vars (Some no_name))
                two_users eq_refl) as (_ & H & _).
    apply (H (mkUser 0 "" "carol@example.net")
             (errorString "name is required")); reflexivity. }
  destruct (invalid_body_is_400 (mkRequest (id_var "2") (Some no_name))
              two_users eq_refl) as (_ & _ & H).
  destruct (H 2 eq_refl) as [_ H'].
  apply (H' (mkUser 0 "" "carol@example.net")
            (errorString "name is required")); reflexivity.
Defined.

Lemma stmts_app l1 l2 : stmts (l1 ++ l2) = stmts l1 ++ stmts l2.
Proof. apply omap_app. Qed.

Lemma stmts_no_call w :
  fault_at 0 w = None ->
  stmts (log (closed (connected w))) = stmts (log w) ++ [].
Proof.
  intros Hc. rewrite log_closed.
  destruct (connected_ok w Hc) as (_ & _ & _ & -> & _).
  rewrite !stmts_app, app_nil_r. cbn. rewrite !app_nil_r. reflexivity.
Qed.

Lemma stmts_one_call w w' q :
  fault_at 0 w = None ->
  log w' = log (connected w) ++ [EvStmt q] ->
  stmts (log (closed w')) = stmts (log w) ++ [q].
Proof.
  intros Hc El. rewrite log_closed, El.
  destruct (connected_ok w Hc) as (_ & _ & _ & -> & _).
  rewrite !stmts_app. cbn. rewrite !app_nil_r. reflexivity.
Qed.

Lemma stmts_failed w :
  fault_at 0 w <> None -> stmts (log (connected w)) = stmts (log w) ++ [].
Proof.
  intros Hc. destruct (connected_failed w Hc) as (_ & _ & _ & ->).
  rewrite app_nil_r. reflexivity.
Qed.

(** X16. A handler run sends at most one statement, and only its own: List
    nothing or the select of all rows; Get nothing or the select by the id
    of the path; Create nothing or the insert of the decoded, validated
    name and email; Update nothing or the update, by the id of the path,
    to that name and email; Delete nothing or the delete by the id of the
    path. So the reading handlers never send a writing statement. *)
Theorem statements_sent r w :
  let sent h := fun qs =>
    stmts (log (snd (serve h r w))) = stmts (log w) ++ qs in
  (sent getAllUsersHandler [] \/ sent getAllUsersHandler [SelectAll]) /\
  (sent getUserHandler [] \/
   exists id, parseID r = Ok id /\ sent getUserHandler [SelectByID id]) /\
  (sent createUserHandler [] \/
   exists u, Decode (Body r) zero_User = (u, None) /\ Validate u = None /\
             sent createUserHandler [Insert (Name u) (Email u)]) /\
  (sent updateUserHandler [] \/
   exists id u, parseID r = Ok id /\
                Decode (Body r) zero_User = (u, None) /\ Validate u = None /\
                sent updateUserHandler [Update (Name u) (Email u) id]) /\
  (sent deleteUserHandler [] \/
   exists id, parseID r = Ok id /\ sent deleteUserHandler [Delete id]).
Proof.
  cbv zeta. unfold zero_User.
  destruct (fault_at 0 w) eqn:Hc.
  { assert (Hf : fault_at 0 w <> None) by congruence.
    rewrite getAllUsersHandler_run, getUserHandler_run,
      createUserHandler_run, updateUserHandler_run, deleteUserHandler_run, Hc.
    cbn [snd]. repeat split; left; apply stmts_failed, Hf. }
  repeat split.
  - right. rewrite getAllUsersHandler_run, Hc.
    pose proof (GetAllUsers_frame db0 (connected w)) as (_ & _ & _ & Fl).
    destruct (GetAllUsers db0 (connected w)) as [res w']. cbn [snd] in *.
    apply stmts_one_call; assumption.
  - rewrite getUserHandler_run, Hc.
    destruct (parseID r) as [id|]; [| left; apply stmts_no_call, Hc].
    right. exists id. split; [reflexivity |].
    pose proof (GetUser_frame db0 id (connected w)) as (_ & _ & _ & Fl).
    destruct (GetUser db0 id (connected w)) as [res w']. cbn [snd] in *.
    apply stmts_one_call; assumption.
  - rewrite createUserHandler_run, Hc.
    destruct (Decode (Body r) _) as [u [e|]];
      [left; apply stmts_no_call, Hc |].
    destruct (Validate u) eqn:Hv; [left; apply stmts_no_call, Hc |].
    right. exists u. split; [reflexivity |]. split; [exact Hv |].
    unfold CreateUser.
    pose proof (Exec_frame db0 (Insert (Name u) (Email u)) (connected w))
      as (_ & Fl).
    destruct (Exec db0 _ (connected w)) as [e w']. cbn [snd] in *.
    apply stmts_one_call; assumption.
  - rewrite updateUserHandler_run, Hc.
    destruct (parseID r) as [id|]; [| left; apply stmts_no_call, Hc].
    destruct (Decode (Body r) _) as [u [e|]];
      [left; apply stmts_no_call, Hc |].
    destruct (Validate u) eqn:Hv; [left; apply stmts_no_call, Hc |].
    right. exists id, u. split; [reflexivity |]. split; [reflexivity |].
    split; [exact Hv |].
    unfold UpdateUser.
    pose proof (Exec_frame db0 (Update (Name u) (Email u) id) (connected w))
      as (_ & Fl).
    destruct (Exec db0 _ (connected w)) as [e w']. cbn [snd] in *.
    apply stmts_one_call; assumption.
  - rewrite deleteUserHandler_run, Hc.
    destruct (parseID r) as [id|]; [| left; apply stmts_no_call, Hc].
    right. exists id. split; [reflexivity |].
    unfold DeleteUser.
    pose proof (Exec_frame db0 (Delete id) (connected w)) as (_ & Fl).
    destruct (Exec db0 _ (connected w)) as [e w']. cbn [snd] in *.
    apply stmts_one_call; assumption.
Qed.

End Responses.

(** ** Emails, path ids and the JSON form of a user *)

Section Formats.

Implicit Types (w : World) (r : Request) (u : User).

Lemma domain_in_local c :
  in_class domain_class c -> in_class local_class c.
Proof.
  unfold in_class, class_has, domain_class, local_class. cbn [existsb].
  intros H.
  repeat match type of H with
         | (_ || _)%bool = true => apply orb_true_iff in H as [H|H]
         end;
    try discriminate; rewrite H, ?orb_true_r; reflexivity.
Qed.

Lemma alpha_in_local c :
  in_class alpha_class c -> in_class local_class c.
Proof.
  unfold in_class, class_has, alpha_class, local_class. cbn [existsb].
  intros H.
  repeat match type of H with
         | (_ || _)%bool = true => apply orb_true_iff in H as [H|H]
         end;
    try discriminate; rewrite H, ?orb_true_r; reflexivity.
Qed.

Lemma no_at_in_local l :
  Forall (in_class local_class) l -> ~ In "@"%char l.
Proof.
  intros H Hin. rewrite Forall_forall in H.
  apply list_elem_of_In in Hin. specialize (H _ Hin). discriminate.
Qed.

(** X13. [isValidEmail] accepts exactly the strings made of a non-empty
    local part over [a-zA-Z0-9._%+-], an [@], a non-empty domain part over
    [a-zA-Z0-9.-], a dot and at least two letters. So an accepted email
    has at least six characters and exactly one [@], and every other
    character of it is in [a-zA-Z0-9._%+-]. *)
Theorem valid_email_facts email :
  (isValidEmail email = true <-> email_shape (list_ascii_of_string email)) /\
  (isValidEmail email = true ->
   (6 <= length (list_ascii_of_string email))%nat /\
   exists l d,
     list_ascii_of_string email = l ++ "@"%char :: d /\
     ~ In "@"%char l /\ ~ In "@"%char d /\
     Forall (in_class local_class) (l ++ d)).
Proof.
  split; [apply isValidEmail_shape |].
  intros H. apply isValidEmail_shape in H
    as (l & d & t & -> & Hl1 & Hl2 & Hd1 & Hd2 & Ht1 & Ht2).
  assert (Hd : Forall (in_class local_class) (d ++ "."%char :: t)).
  { apply Forall_app. split.
    - eapply Forall_impl; [exact Hd2 | exact domain_in_local].
    - constructor; [reflexivity |].
      eapply Forall_impl; [exact Ht2 | exact alpha_in_local]. }
  split.
  - destruct l; [congruence |]. destruct d; [congruence |].
    rewrite !length_app. cbn [length]. rewrite length_app. cbn [length]. lia.
  - exists l, (d ++ "."%char :: t). split; [reflexivity |].
    split; [apply no_at_in_local, Hl2 |].
    split; [apply no_at_in_local, Hd |].
    apply Forall_app. auto.
Qed.

Lemma valid_email_facts_witness :
  (6 <= length (list_ascii_of_string "ann@example.com"))%nat /\
  exists l d,
    list_ascii_of_string "ann@example.com" = l ++ "@"%char :: d /\
    ~ In "@"%char l /\ ~ In "@"%char d /\
    Forall (in_class local_class) (l ++ d).
Proof.
  apply (valid_email_facts "ann@example.com"). reflexivity.
Defined.

(** X14. [parseID] returns an integer exactly when the id variable of the
    route is a signed decimal numeral whose value fits an [int], and then
    returns that value; a request without an id variable is refused with
    the syntax error of the empty string. *)
Theorem parseID_iff r v :
  (parseID r = Ok v <->
   signed_decimal (default "" (vars r !! "id")) v /\
   strconv.minInt <= v <= strconv.maxInt) /\
  (vars r !! "id" = None -> parseID r = Err (ErrSyntax "Atoi" "")).
Proof.
  unfold parseID. split.
  - split; [apply Atoi_Ok_inv | intros [Hs Hr]; apply Atoi_Ok; assumption].
  - intros ->. reflexivity.
Qed.








End Formats.

(** ** A connection that cannot be opened *)

Section NoConnection.

Implicit Types (w : World) (r : Request).

(** X20. When [dbConnection] returns an error, every handler answers 500
    with the text [Failed to connect to the database] and does nothing
    else: the request is not looked at, no statement is sent, no handle
    is opened or closed, and the table is as it was. *)
Theorem connection_failure_is_500 r w e :
  fault_at 0 w = Some e ->
  Forall (fun h =>
            status (fst (serve h r w)) = Some StatusInternalServerError /\
            body (fst (serve h r w))
            = [Text ("Failed to connect to the database" +:+ newline)] /\
            users (snd (serve h r w)) = users w /\
            log (snd (serve h r w)) = log w /\
            open_handles (snd (serve h r w)) = open_handles w)
         all_handlers.
Proof.
  intros Hc.
  assert (Hf : fault_at 0 w <> None) by congruence.
  destruct (connected_failed w Hf) as (Eu & _ & Eh & El).
  repeat apply List.Forall_cons; [| | | | | apply List.Forall_nil].
  - rewrite getAllUsersHandler_run, Hc. cbn [fst snd]. auto.
  - rewrite createUserHandler_run, Hc. cbn [fst snd]. auto.
  - rewrite getUserHandler_run, Hc. cbn [fst snd]. auto.
  - rewrite updateUserHandler_run, Hc. cbn [fst snd]. auto.
  - rewrite deleteUserHandler_run, Hc. cbn [fst snd]. auto.
Qed.

Lemma connection_failure_is_500_witness :
  Forall (fun h =>
            status (fst (serve h (mkRequest (id_var "abc") None)
                               (cannot_connect two_users)))
            = Some StatusInternalServerError /\
            log (snd (serve h (mkRequest (id_var "abc") None)
                            (cannot_connect two_users))) = [])
         all_handlers.
Proof.
  eapply Forall_impl;
    [apply (connection_failure_is_500 (mkRequest (id_var "abc") None)
              (cannot_connect two_users) (StoreError "unknown driver")
              eq_refl) |].
  intros h (Hs & _ & _ & Hl & _). split; [exact Hs | exact Hl].
Defined.

End NoConnection.

Lemma parseID_iff_witness :
  parseID (mkRequest (id_var "-5") None) = Ok (-5) /\
  parseID (mkRequest no_vars None) = Err (ErrSyntax "Atoi" "").
Proof.
  split.
  - apply (parseID_iff (mkRequest (id_var "-5") None) (-5)). split.
    + apply (sd_minus ["5"%char]). split; [discriminate | repeat constructor].
    + split; discriminate.
  - apply (parseID_iff (mkRequest no_vars None) 0). reflexivity.
Defined.
